(** * MCP-A2A: the company-data context server ([mcp_integration.py])

    A shallow embedding of [CompanyDataMCPServer] (corpus load, search,
    request facade) and of [CompanyDataMCPClient.format_for_llm], with the
    properties of the retrieval core stated and proved over it.

    Conventions of the embedding:
    - Python [str] is [string], the UTF-8 bytes of the text; [in] on such
      strings is the occurrence of one byte sequence in another.
    - [str.lower] is a builtin of Python, not code of the repository: it is
      a parameter ([Python]), of which only two facts are used, and those
      only where a statement speaks of ASCII text or of ASCII case.
    - The numbers of the embedding path are float32 values, written as the
      rationals they are ([Q]). What numpy computes with them ([np.dot],
      [np.linalg.norm], the rounded [*], [+], [/], [np.argsort]) is a
      parameter ([NumPy]); similarity always means the score so computed.
    - The embedding model ([SentenceTransformer]) is a collaborator from
      outside the repository; it is a value of the server's state.
    - A Python exception is the [Raise] outcome of the [result] monad. *)

From Stdlib Require Import QArith Ascii.
From stdpp Require Import gmap strings list sorting.

Close Scope Q_scope.

(** ** Python strings *)

Module PyStr.

(** The line feed, written [\n] in the source. *)
Definition nl : string := String (Ascii.ascii_of_nat 10) EmptyString.

(** [c.lower()] for one character of the ASCII range. *)
Definition lower_char (c : ascii) : ascii :=
  let n := Ascii.nat_of_ascii c in
  if (65 <=? n)%nat && (n <=? 90)%nat then Ascii.ascii_of_nat (n + 32) else c.

(** ASCII case folding: the letters [A] to [Z] become [a] to [z], every other
    byte stays. This is [s.lower()] when [s] is ASCII text. *)
Fixpoint lower (s : string) : string :=
  match s with
  | EmptyString => EmptyString
  | String c s' => String (lower_char c) (lower s')
  end.

(** [s.isascii()] *)
Fixpoint is_ascii (s : string) : bool :=
  match s with
  | EmptyString => true
  | String c s' => (Ascii.nat_of_ascii c <? 128)%nat && is_ascii s'
  end.

(** [hay.startswith(needle)] *)
Fixpoint startswith (needle hay : string) : bool :=
  match needle, hay with
  | EmptyString, _ => true
  | String _ _, EmptyString => false
  | String a needle', String b hay' =>
      Ascii.eqb a b && startswith needle' hay'
  end.

(** [needle in hay]: [needle] occurs in [hay] at some offset. *)
Fixpoint contains (needle hay : string) : bool :=
  startswith needle hay ||
  match hay with
  | EmptyString => false
  | String _ hay' => contains needle hay'
  end.

(** The mathematical notion [contains] decides. *)
Definition substring (needle hay : string) : Prop :=
  ∃ pre post, hay = pre +:+ needle +:+ post.

End PyStr.

(** The builtin [str.lower]. It lowers by the Unicode tables and by context
    (the final sigma), so it is not defined here; two facts about it are
    assumed: on ASCII text it is ASCII case folding, and folding the ASCII
    letters of a text first does not change its result. *)
Class Python : Type := {
  str_lower : string → string;
  str_lower_of_ascii :
    ∀ s, PyStr.is_ascii s = true → str_lower s = PyStr.lower s;
  str_lower_fold : ∀ s, str_lower (PyStr.lower s) = str_lower s;
}.

(** ** Exceptions *)

Inductive exn : Type :=
  | OSError
  | IndexError
  | ValueError
  | ModelError.

Inductive result (A : Type) : Type :=
  | Ok (a : A)
  | Raise (e : exn).
Arguments Ok {A} a.
Arguments Raise {A} e.

#[global] Instance result_ret : MRet result := λ A a, Ok a.
#[global] Instance result_bind : MBind result := λ A B f r,
  match r with
  | Ok a => f a
  | Raise e => Raise e
  end.

(** [l[i]] on a Python list or array: [IndexError] past the end. *)
Definition getitem {A} (l : list A) (i : nat) : result A :=
  match l !! i with
  | Some a => Ok a
  | None => Raise IndexError
  end.

(** [l[:stop]]: a negative [stop] counts from the end, and the bounds are
    clipped to the list. *)
Definition slice_to {A} (l : list A) (stop : Z) : list A :=
  if (0 <=? stop)%Z then take (Z.to_nat stop) l
  else take (Z.to_nat (Z.of_nat (length l) + stop)) l.

(** ** Data model *)

(** One record of [company_data.json]. *)
Record Doc : Type := mkDoc {
  doc_id : string;
  doc_title : string;
  doc_content : string;
}.

(** An embedding vector, and the 2-D array of them (one row per document). *)
Abbreviation vec := (list Q).
Abbreviation matrix := (list (list Q)).

(** The embedding model: [model.encode(texts, convert_to_numpy=True)]. *)
Record Model : Type := mkModel {
  encode : list string → result matrix;
}.

(** The attributes of a [CompanyDataMCPServer] after [__init__]. *)
Record Server : Type := mkServer {
  company_data : list Doc;
  doc_embeddings : option matrix;
  embedding_model : option Model;
}.

(** One entry of the response's [results] list. *)
Record ResultItem : Type := mkResultItem {
  title : string;
  content : string;
  source : string;
}.

(** The response dictionary over its three keys; [None] is a missing key.
    [handle_request] sets all three. *)
Record Response : Type := mkResponse {
  results : option (list ResultItem);
  query : option string;
  total_results : option nat;
}.

(** What numpy computes in [search_data], in float32:
    [np.linalg.norm(q)] of a vector; [np.argsort]; entry [i] of
    [np.dot(E, q)] and of [np.linalg.norm(E, axis=1)], each of which may
    depend on the whole array; and the rounded product, sum and quotient of
    two numbers, which the array operators apply entry by entry. *)
Record NumPy : Type := mkNumPy {
  linalg_norm : vec → Q;
  argsort : list Q → list nat;
  dot_entry : matrix → vec → nat → Q;
  row_norm : matrix → nat → Q;
  fmul : Q → Q → Q;
  fadd : Q → Q → Q;
  fdiv : Q → Q → Q;
}.

(** ** Corpus store: [load_data] *)

(** What [load_data] finds outside the process: the outcome of opening and
    parsing the JSON file, and of constructing the embedding model. *)
Record Env : Type := mkEnv {
  read_json : result (list Doc);
  make_model : result Model;
}.

Definition doc_text (doc : Doc) : string :=
  doc_title doc +:+ " " +:+ doc_content doc.

(** The body of the [try] block. *)
Definition load_try (env : Env) : result Server :=
  data ← read_json env;
  model ← make_model env;
  embs ← encode model (map doc_text data);
  Ok {| company_data := data;
        doc_embeddings := Some embs;
        embedding_model := Some model |}.

(** The state set by the [except Exception] handler. *)
Definition degraded : Server :=
  {| company_data := []; doc_embeddings := None; embedding_model := None |}.

Definition load_data (env : Env) : Server :=
  match load_try env with
  | Ok st => st
  | Raise _ => degraded
  end.

(** ** Retriever: [search_data] *)

Definition eps : Q := 1 # 10000000000.

(** The exact dot product; the reference instance below computes with it. *)
Definition dot (u v : vec) : Q :=
  foldr Qplus 0%Q (zip_with Qmult u v).

(** The branch condition of [search_data]. *)
Definition keyword_mode (st : Server) : bool :=
  match embedding_model st, doc_embeddings st with
  | Some _, Some _ => false
  | _, _ => true
  end.

Definition keyword_match `{Python} (query_l : string) (doc : Doc) : bool :=
  PyStr.contains query_l (str_lower (doc_title doc))
  || PyStr.contains query_l (str_lower (doc_content doc)).

Section Retriever.

Context {py : Python}.
Variable np : NumPy.

(** [np.dot(E, q)] for the document embeddings [E] and a 1-D [q]. The row
    length must be the length of [q]. Without rows [E] is the array the model
    returns for no text at all, which has one dimension and no columns:
    the product with [q] is refused for its shape (and for a [q] of length 0,
    where it is a number, the row norms that follow are refused for the
    axis). *)
Definition np_dot (E : matrix) (q : vec) : result (list Q) :=
  match E with
  | [] => Raise ValueError
  | _ :: _ =>
      if forallb (λ row, length row =? length q)%nat E
      then Ok (map (dot_entry np E q) (seq 0 (length E)))
      else Raise ValueError
  end.

(** [np.dot(E, q) / (np.linalg.norm(E, axis=1) * np.linalg.norm(q) + 1e-10)] *)
Definition similarities (E : matrix) (q : vec) : result (list Q) :=
  dots ← np_dot E q;
  Ok (zip_with (fdiv np) dots
        (map (λ n, fadd np (fmul np n (linalg_norm np q)) eps)
             (map (row_norm np E) (seq 0 (length E))))).

(** The debug output is left out, except where producing it can raise: the
    loop that prints the scores reads [company_data[i]] for every score. *)
Definition search_data (st : Server) (query : string) (top_k : Z)
    (similarity_threshold : Q) : result (list Doc) :=
  match embedding_model st, doc_embeddings st with
  | Some model, Some embs =>
      encoded ← encode model [query];
      query_emb ← getitem encoded 0;
      sims ← similarities embs query_emb;
      _ ← mapM (getitem (company_data st)) (seq 0 (length sims));
      let top_indices := reverse (argsort np sims) in
      mapM (getitem (company_data st)) (slice_to top_indices top_k)
  | _, _ =>
      let query_l := str_lower query in
      Ok (filter (λ doc, keyword_match query_l doc = true) (company_data st))
  end.

(** ** Request facade: [handle_request] *)

(** The loop that appends one formatted entry per result. *)
Definition format_results (found : list Doc) : list ResultItem :=
  foldl (λ formatted_results r,
           (formatted_results ++
              [ {| title := doc_title r;
                   content := doc_content r;
                   source := "Company Database - " +:+ doc_id r |} ])%list)
        [] found.

(** [search_data(query)]: [top_k] and [similarity_threshold] take their
    defaults, 3 and 0.3. The coroutine never suspends; it is a function. *)
Definition handle_request (st : Server) (request : gmap string string)
    : result Response :=
  let q := default "" (request !! "query") in
  found ← search_data st q 3 (3 # 10);
  let formatted_results := format_results found in
  Ok {| results := Some formatted_results;
        query := Some q;
        total_results := Some (length formatted_results) |}.

(** The client side: build the request and call the server in process. *)
Definition request_company_data (st : Server) (q : string) : result Response :=
  handle_request st (<["query" := q]> (<["type" := "company_data"]> ∅)).

End Retriever.

(** ** Response formatter: [format_for_llm] *)

Definition no_information : string := "No relevant company information found.".

Definition header : string := "COMPANY INFORMATION:" +:+ PyStr.nl +:+ PyStr.nl.

(** [not response] on a dictionary: true on the empty one. *)
Definition dict_empty (r : Response) : bool :=
  match results r, query r, total_results r with
  | None, None, None => true
  | _, _, _ => false
  end.

(** The two [+=] of the loop body. *)
Definition append_result (formatted_text : string) (r : ResultItem) : string :=
  (formatted_text +:+ ("--- " +:+ title r +:+ " ---" +:+ PyStr.nl))
    +:+ (content r +:+ PyStr.nl +:+ PyStr.nl).

(** [response] is [None] when the caller passes Python's [None]. *)
Definition format_for_llm (response : option Response) : string :=
  match response with
  | None => no_information
  | Some r =>
      if dict_empty r then no_information
      else match results r with
           | None | Some [] => no_information
           | Some rs => foldl append_result header rs
           end
  end.

(** ** Reference instances of the numpy routines

    Instances to run the definitions on, with exact arithmetic; the theorems
    are about every [NumPy]. [np.argsort] with its default kind promises the
    indices in an order of ascending values and nothing about equal values,
    so two instances are given. In [np], [argsort] is a stable insertion sort
    (what numpy's own insertion sort of short arrays yields); in [np_rev] it
    lists equal values by descending index (an order a vectorised sort may
    yield). [norm] takes the integer square root of the sum of squares, which
    is the Euclidean norm whenever that sum is the square of a rational, as
    it is on the example vectors. *)

Module RefNumPy.

Fixpoint insert (p : nat * Q) (l : list (nat * Q)) : list (nat * Q) :=
  match l with
  | [] => [p]
  | h :: t => if Qle_bool p.2 h.2 then p :: h :: t else h :: insert p t
  end.

Fixpoint sort (l : list (nat * Q)) : list (nat * Q) :=
  match l with
  | [] => []
  | p :: t => insert p (sort t)
  end.

Definition argsort (xs : list Q) : list nat :=
  (sort (zip (seq 0 (length xs)) xs)).*1.

Definition norm (v : vec) : Q :=
  let s := Qred (dot v v) in
  Z.sqrt (Qnum s * Z.pos (Qden s)) # Qden s.

Definition dot_entry (E : matrix) (q : vec) (i : nat) : Q :=
  dot (default [] (E !! i)) q.

Definition row_norm (E : matrix) (i : nat) : Q :=
  norm (default [] (E !! i)).

Definition np : NumPy :=
  mkNumPy norm argsort dot_entry row_norm Qmult Qplus Qdiv.

(** Ascending values, equal values by descending index. *)
Definition argsort_rev (xs : list Q) : list nat :=
  reverse (argsort (map Qopp xs)).

Definition np_rev : NumPy :=
  mkNumPy norm argsort_rev dot_entry row_norm Qmult Qplus Qdiv.

(** A sum that absorbs its second term, as the float32 sum absorbs [1e-10]
    next to a number of ordinary size. *)
Definition np_absorbing : NumPy :=
  mkNumPy norm argsort dot_entry row_norm Qmult (λ x _, x) Qdiv.

(** The order the sort establishes: by value, ties by index. *)
Definition lex (p q : nat * Q) : Prop :=
  (p.2 < q.2)%Q ∨ ((p.2 == q.2)%Q ∧ p.1 < q.1).

End RefNumPy.

(** ** Vocabulary of the statements *)

(** The similarity of document [i] to the query vector [q], as [search_data]
    computes it: entry [i] of
    [np.dot(E, q) / (np.linalg.norm(E, axis=1) * np.linalg.norm(q) + 1e-10)]. *)
Definition cosine (np : NumPy) (E : matrix) (q : vec) (i : nat) : Q :=
  fdiv np (dot_entry np E q i)
       (fadd np (fmul np (row_norm np E i) (linalg_norm np q)) eps).

(** The array of the similarities. *)
Definition scores (np : NumPy) (E : matrix) (q : vec) : list Q :=
  map (cosine np E q) (seq 0 (length E)).

(** Embedding mode, for the query [q]: the model and the document embeddings
    are set, there is one embedding row per document, the model encodes [q]
    to [qv], and the rows have the dimension of [qv]. *)
Definition embedding_ready (st : Server) (model : Model) (E : matrix)
    (q : string) (qv : vec) : Prop :=
  embedding_model st = Some model ∧
  doc_embeddings st = Some E ∧
  length E = length (company_data st) ∧
  (∃ rest, encode model [q] = Ok (qv :: rest)) ∧
  Forall (λ row, length row = length qv) E.

(** What [np.argsort] promises: the indices of its argument, arranged so that
    the values ascend. *)
Definition argsort_sorts (np : NumPy) : Prop :=
  ∀ xs : list Q,
    argsort np xs ≡ₚ seq 0 (length xs) ∧
    ∀ i j a b xa xb,
      i ≤ j →
      argsort np xs !! i = Some a → argsort np xs !! j = Some b →
      xs !! a = Some xa → xs !! b = Some xb →
      (xa <= xb)%Q.

(** A stable [argsort] keeps equal values in the order of their indices. *)
Definition argsort_stable (np : NumPy) : Prop :=
  ∀ (xs : list Q) i j a b xa xb,
    i < j →
    argsort np xs !! i = Some a → argsort np xs !! j = Some b →
    xs !! a = Some xa → xs !! b = Some xb →
    (xa == xb)%Q →
    a < b.

(** [res] are the documents at the corpus positions [idxs], in order. *)
Definition docs_at (st : Server) (idxs : list nat) (res : list Doc) : Prop :=
  Forall2 (λ i d, company_data st !! i = Some d) idxs res.

(** Along [idxs], the similarity to [qv] never increases. *)
Definition descending (np : NumPy) (E : matrix) (qv : vec)
    (idxs : list nat) : Prop :=
  ∀ i j a b,
    i ≤ j → idxs !! i = Some a → idxs !! j = Some b →
    (cosine np E qv b <= cosine np E qv a)%Q.

(** Every position outside [idxs] scores no higher than one inside. *)
Definition dominates (np : NumPy) (E : matrix) (qv : vec)
    (idxs : list nat) : Prop :=
  ∀ a b,
    a ∈ idxs → b ∉ idxs → b < length E →
    (cosine np E qv b <= cosine np E qv a)%Q.

(** [x] comes before [y] in [l]. *)
Definition before (l : list nat) (x y : nat) : Prop :=
  ∃ i j, i < j ∧ l !! i = Some x ∧ l !! j = Some y.

(** Positions of equal similarity appear along [idxs] in the order [tie]. *)
Definition ties_ordered (np : NumPy) (E : matrix) (qv : vec)
    (tie : nat → nat → Prop) (idxs : list nat) : Prop :=
  ∀ i j a b,
    i < j → idxs !! i = Some a → idxs !! j = Some b →
    (cosine np E qv a == cosine np E qv b)%Q →
    tie a b.

(** The search returns the documents of some index list whose ties are in the
    order [tie]. *)
Definition returns_with_ties `{Python} (np : NumPy) (st : Server) (E : matrix)
    (q : string) (qv : vec) (top_k : Z) (threshold : Q)
    (tie : nat → nat → Prop) : Prop :=
  ∃ idxs res,
    search_data np st q top_k threshold = Ok res ∧
    docs_at st idxs res ∧
    ties_ordered np E qv tie idxs.

(** The keyword criterion, as a proposition. *)
Definition matches `{Python} (q : string) (d : Doc) : Prop :=
  PyStr.substring (str_lower q) (str_lower (doc_title d)) ∨
  PyStr.substring (str_lower q) (str_lower (doc_content d)).

(** The response entry of one document. *)
Definition to_item (d : Doc) : ResultItem :=
  {| title := doc_title d;
     content := doc_content d;
     source := "Company Database - " +:+ doc_id d |}.

(** The text block of one entry: delimiter line, content, blank line. *)
Definition entry (r : ResultItem) : string :=
  "--- " +:+ title r +:+ " ---" +:+ PyStr.nl +:+ content r
    +:+ PyStr.nl +:+ PyStr.nl.

Fixpoint entries (rs : list ResultItem) : string :=
  match rs with
  | [] => ""
  | r :: rs' => entry r +:+ entries rs'
  end.

(** The causes of a failed load: the source cannot be read or parsed, the
    model cannot be constructed, or the corpus cannot be encoded. *)
Definition load_fails (env : Env) : Prop :=
  (∃ e, read_json env = Raise e) ∨
  (∃ e, make_model env = Raise e) ∨
  (∃ data model e,
     read_json env = Ok data ∧ make_model env = Ok model ∧
     encode model (map doc_text data) = Raise e).

(** The response [handle_request] builds from the documents found. *)
Definition envelope (q : string) (found : list Doc) : Response :=
  {| results := Some (to_item <$> found);
     query := Some q;
     total_results := Some (length (to_item <$> found)) |}.

(** ** A small corpus to run the definitions on

    Two documents after the scenario of the specification and a third one; a
    toy embedding model that sends a text mentioning a foundation to [(3, 4)]
    and any other text to [(4, 3)]. *)

Module Example.

Definition profile : Doc :=
  mkDoc "1" "Company Profile" "TechCorp was founded in 2010.".

Definition products : Doc :=
  mkDoc "2" "Products" "TechCorp offers TechAssist and DataInsight.".

Definition support : Doc :=
  mkDoc "3" "Support" "The help desk answers on weekdays.".

Definition embed (text : string) : vec :=
  if PyStr.contains "founded" (PyStr.lower text)
  then [3 # 1; 4 # 1]%Q else [4 # 1; 3 # 1]%Q.

Definition model : Model := {| encode := λ texts, Ok (map embed texts) |}.

Definition question : string := "When was TechCorp founded?".

(** What the load computes for the two stores below. *)
Definition embeddings : matrix := [[3 # 1; 4 # 1]; [4 # 1; 3 # 1]]%Q.

Definition tied_embeddings : matrix := [[4 # 1; 3 # 1]; [4 # 1; 3 # 1]]%Q.

(** The store after a successful load of the first two documents. *)
Definition store : Server :=
  load_data {| read_json := Ok [profile; products]; make_model := Ok model |}.

(** A store whose two documents have the same embedding. *)
Definition tied_store : Server :=
  load_data {| read_json := Ok [products; support]; make_model := Ok model |}.

(** A store whose first embedding is twice its second. *)
Definition scaled_store : Server :=
  {| company_data := [profile; products];
     doc_embeddings := Some [[6 # 1; 8 # 1]; [3 # 1; 4 # 1]]%Q;
     embedding_model := Some model |}.

(** The same corpus with the embedding model switched off. *)
Definition keyword_store : Server :=
  {| company_data := [profile; products];
     doc_embeddings := None;
     embedding_model := None |}.

(** The source file holds the empty list: the load succeeds, and the server
    is in embedding mode over no document. *)
Definition empty_store : Server :=
  load_data {| read_json := Ok []; make_model := Ok model |}.

(** The source file is missing. *)
Definition missing_file : Env :=
  {| read_json := Raise OSError; make_model := Ok model |}.

(** The request the client builds, and one without a query. *)
Definition request : gmap string string :=
  <["query" := "TechCorp"]> (<["type" := "company_data"]> ∅).

Definition request_without_query : gmap string string :=
  <["type" := "company_data"]> ∅.

(** The environment behind [store]. *)
Definition env : Env :=
  {| read_json := Ok [profile; products]; make_model := Ok model |}.

(** A store whose model fails at query time. *)
Definition broken_model : Model := {| encode := λ _, Raise ModelError |}.

Definition broken_store : Server :=
  {| company_data := [profile];
     doc_embeddings := Some [[3 # 1; 4 # 1]]%Q;
     embedding_model := Some broken_model |}.

End Example.

(** ** The callers: [setup_mcp] and the prompt context of [app.py] *)

(** [setup_mcp(data_path)]: the server is constructed, which loads the data;
    the client keeps a reference to it, so the client's methods are the
    functions above applied to the server's state. *)
Definition setup_mcp (env : Env) : Server := load_data env.

(** [generate_response] with [use_mcp], and the integration page:
    [mcp_response = await mcp_client.request_company_data(query)] followed by
    [mcp_context = mcp_client.format_for_llm(mcp_response)]. These are the two
    statements only; the [try] around them in the callers is not part of the
    definition, so [Raise] is what the statements raise into it. *)
Definition mcp_context `{Python} (np : NumPy) (st : Server) (q : string) : result string :=
  mcp_response ← request_company_data np st q;
  Ok (format_for_llm (Some mcp_response)).

(** An embedding model that returns one row of [dim] numbers per text. *)
Definition regular (model : Model) (dim : nat) : Prop :=
  ∀ texts, ∃ rows,
    encode model texts = Ok rows ∧
    length rows = length texts ∧
    Forall (λ row, length row = dim) rows.

(** What the formatter reads of an entry. *)
Definition shown (r : ResultItem) : string * string := (title r, content r).

(** * Properties *)

(** ** Strings *)

Module PyStrFacts.
Import PyStr.

Lemma append_nil_l (s : string) : "" +:+ s = s.
Proof. reflexivity. Qed.

Lemma append_cons (c : ascii) (s t : string) :
  String c s +:+ t = String c (s +:+ t).
Proof. reflexivity. Qed.

Lemma append_nil_r (s : string) : s +:+ "" = s.
Proof.
  induction s as [|c s IH]; [done|]. by rewrite append_cons, IH.
Qed.

Lemma append_assoc (s1 s2 s3 : string) :
  (s1 +:+ s2) +:+ s3 = s1 +:+ (s2 +:+ s3).
Proof.
  induction s1 as [|c s1 IH]; [done|]. by rewrite !append_cons, IH.
Qed.

Lemma startswith_spec (s t : string) :
  startswith s t = true ↔ ∃ post, t = s +:+ post.
Proof.
  revert t. induction s as [|c s IH]; intros t.
  - split; [intros _; exists t; reflexivity | done].
  - destruct t as [|c' t]; cbn [startswith].
    + split; [done | intros [post Hpost]; discriminate].
    + rewrite andb_true_iff, Ascii.eqb_eq, IH. split.
      * intros [-> [post ->]]. exists post. reflexivity.
      * intros [post Hpost]. rewrite append_cons in Hpost.
        injection Hpost as -> ->. split; [done | by exists post].
Qed.

(** [contains] decides occurrence as a substring. *)
Lemma contains_spec (needle hay : string) :
  contains needle hay = true ↔ substring needle hay.
Proof.
  unfold substring. induction hay as [|c hay IH].
  - simpl. rewrite orb_false_r, startswith_spec. split.
    + intros [post ->]. exists "", post. reflexivity.
    + intros ([|c pre] & post & Heq); [exists post; exact Heq | discriminate].
  - cbn [contains]. rewrite orb_true_iff, startswith_spec, IH. split.
    + intros [[post ->] | (pre & post & ->)].
      * exists "", post. reflexivity.
      * exists (String c pre), post. reflexivity.
    + intros ([|c' pre] & post & Heq).
      * left. exists post. exact Heq.
      * right. exists pre, post. rewrite append_cons in Heq. congruence.
Qed.

(** The empty string occurs in every string. *)
Lemma contains_empty (hay : string) : contains "" hay = true.
Proof. apply contains_spec. exists "", hay. reflexivity. Qed.

End PyStrFacts.

(** ** Strings, continued *)

Module PyStrMore.
Import PyStr PyStrFacts.

Lemma lower_char_idemp (c : ascii) : lower_char (lower_char c) = lower_char c.
Proof. destruct c as [[] [] [] [] [] [] [] []]; reflexivity. Qed.

Lemma lower_idemp (s : string) : lower (lower s) = lower s.
Proof.
  induction s as [|c s IH]; [done|]. cbn [lower].
  by rewrite lower_char_idemp, IH.
Qed.

Lemma lower_append (s t : string) : lower (s +:+ t) = lower s +:+ lower t.
Proof.
  induction s as [|c s IH]; [done|].
  rewrite append_cons. cbn [lower]. by rewrite append_cons, IH.
Qed.

Lemma substring_lower (s t : string) :
  substring s t → substring (lower s) (lower t).
Proof.
  intros (pre & post & ->). exists (lower pre), (lower post).
  by rewrite !lower_append.
Qed.

Lemma substring_trans (s t u : string) :
  substring s t → substring t u → substring s u.
Proof.
  intros (p1 & q1 & ->) (p2 & q2 & ->).
  exists (p2 +:+ p1), (q1 +:+ q2). by rewrite !append_assoc.
Qed.

Lemma substring_refl (s : string) : substring s s.
Proof. exists "", "". by rewrite append_nil_r. Qed.

Lemma substring_append_l (s t u : string) :
  substring s t → substring s (t +:+ u).
Proof.
  intros (pre & post & ->). exists pre, (post +:+ u).
  by rewrite !append_assoc.
Qed.

Lemma substring_append_r (s t u : string) :
  substring s u → substring s (t +:+ u).
Proof.
  intros (pre & post & ->). exists (t +:+ pre), post.
  by rewrite !append_assoc.
Qed.

Lemma is_ascii_append (s t : string) :
  is_ascii (s +:+ t) = is_ascii s && is_ascii t.
Proof.
  induction s as [|c s IH]; [done|].
  rewrite append_cons. cbn [is_ascii]. by rewrite IH, andb_assoc.
Qed.

Lemma substring_is_ascii (s t : string) :
  substring s t → is_ascii t = true → is_ascii s = true.
Proof.
  intros (pre & post & ->). rewrite !is_ascii_append, !andb_true_iff. tauto.
Qed.

End PyStrMore.

(** ASCII case folding is an instance of [Python]: it is what [str.lower]
    does when all text is ASCII. The statements are run on it. *)
#[global] Instance ascii_python : Python := {|
  str_lower := PyStr.lower;
  str_lower_of_ascii := λ s _, eq_refl;
  str_lower_fold := PyStrMore.lower_idemp;
|}.

(** ** Keyword fallback *)

Section Keyword.

Context {py : Python}.
Variable np : NumPy.

Lemma keyword_match_spec (q : string) (d : Doc) :
  keyword_match (str_lower q) d = true ↔ matches q d.
Proof.
  unfold keyword_match, matches.
  by rewrite orb_true_iff, !PyStrFacts.contains_spec.
Qed.

#[global] Instance matches_dec (q : string) (d : Doc) : Decision (matches q d).
Proof.
  refine (cast_if (decide (keyword_match (str_lower q) d = true)));
    by rewrite <- keyword_match_spec.
Defined.

Lemma search_data_keyword (st : Server) (q : string) (k : Z) (t : Q) :
  keyword_mode st = true →
  search_data np st q k t = Ok (filter (matches q) (company_data st)).
Proof.
  unfold keyword_mode, search_data. intros Hmode.
  assert (filter (λ doc, keyword_match (str_lower q) doc = true)
            (company_data st) = filter (matches q) (company_data st)) as Heq.
  { apply list_filter_iff. intros d. apply keyword_match_spec. }
  destruct (embedding_model st), (doc_embeddings st);
    first [discriminate | by rewrite Heq].
Qed.

Lemma str_lower_empty : str_lower "" = "".
Proof. by rewrite str_lower_of_ascii. Qed.

Lemma matches_empty (d : Doc) : matches "" d.
Proof.
  apply keyword_match_spec. unfold keyword_match. rewrite str_lower_empty.
  by rewrite PyStrFacts.contains_empty.
Qed.

Lemma filter_all {A} (P : A → Prop) `{!∀ x, Decision (P x)} (l : list A) :
  (∀ x, P x) → filter P l = l.
Proof.
  intros HP. induction l as [|x l IH]; [done|].
  rewrite filter_cons_True by apply HP. by rewrite IH.
Qed.

(** C3. On the keyword path a document is returned exactly when the
    lower-cased query occurs in its lower-cased title or content; the
    result is the corpus filtered in place, so corpus order is kept, no
    match is dropped, and [top_k] (like the threshold) plays no part. *)
Theorem keyword_fallback_all_matches (st : Server) (q : string) (k : Z) (t : Q) :
  keyword_mode st = true →
  ∃ res,
    search_data np st q k t = Ok res ∧
    res = filter (matches q) (company_data st) ∧
    (∀ d, d ∈ company_data st → (d ∈ res ↔ matches q d)) ∧
    res `sublist_of` company_data st ∧
    (∀ k' t', search_data np st q k' t' = Ok res).
Proof.
  intros Hmode. exists (filter (matches q) (company_data st)).
  split; [by apply search_data_keyword|].
  split; [done|]. split; [|split].
  - intros d Hd. rewrite list_elem_of_filter. tauto.
  - apply sublist_filter.
  - intros k' t'. by apply search_data_keyword.
Qed.

End Keyword.

(** ** Embedding path *)

Section Embedding.

Context {py : Python}.
Variable np : NumPy.

Lemma length_scores (E : matrix) (q : vec) :
  length (scores np E q) = length E.
Proof. unfold scores. by rewrite length_map, length_seq. Qed.

Lemma scores_lookup (E : matrix) (q : vec) (a : nat) (x : Q) :
  scores np E q !! a = Some x ↔ a < length E ∧ x = cosine np E q a.
Proof.
  unfold scores. rewrite list_lookup_fmap. split.
  - destruct (seq 0 (length E) !! a) as [a'|] eqn:Ha; [|done].
    apply lookup_seq in Ha as [-> ?]. by intros [= <-].
  - intros [Ha ->]. by rewrite lookup_seq_lt.
Qed.

Lemma np_dot_ok (E : matrix) (q : vec) :
  E ≠ [] →
  Forall (λ row, length row = length q) E →
  np_dot np E q = Ok (map (dot_entry np E q) (seq 0 (length E))).
Proof.
  intros Hne Hdim. unfold np_dot.
  assert (forallb (λ row, length row =? length q) E = true) as ->.
  { apply forallb_forall. intros row Hrow. apply Nat.eqb_eq.
    rewrite Forall_forall in Hdim. apply Hdim. by apply list_elem_of_In. }
  by destruct E.
Qed.

Lemma similarities_ok (E : matrix) (q : vec) :
  E ≠ [] →
  Forall (λ row, length row = length q) E →
  similarities np E q = Ok (scores np E q).
Proof.
  intros Hne Hdim. unfold similarities. rewrite np_dot_ok by done.
  change (Ok ?x ≫= ?f) with (f x). cbv beta. f_equal.
  unfold scores. generalize (seq 0 (length E)). intros l.
  induction l as [|i l IH]; [done|]. cbn. by rewrite IH.
Qed.

Lemma getitem_Ok {A} (l : list A) (i : nat) a :
  getitem l i = Ok a ↔ l !! i = Some a.
Proof. unfold getitem. destruct (l !! i); split; congruence. Qed.

Lemma mapM_getitem_cons {A} (l : list A) (i : nat) (idxs : list nat) a res :
  l !! i = Some a →
  mapM (getitem l) idxs = Ok res →
  mapM (getitem l) (i :: idxs) = Ok (a :: res).
Proof.
  intros Ha Hres. change (mapM (getitem l) (i :: idxs)) with
    (y ← getitem l i; k ← mapM (getitem l) idxs; mret (y :: k)).
  apply getitem_Ok in Ha. by rewrite Ha, Hres.
Qed.

Lemma mapM_getitem_inv {A} (l : list A) (i : nat) (idxs : list nat) res :
  mapM (getitem l) (i :: idxs) = Ok res →
  ∃ a tl, res = a :: tl ∧ l !! i = Some a ∧ mapM (getitem l) idxs = Ok tl.
Proof.
  change (mapM (getitem l) (i :: idxs)) with
    (y ← getitem l i; k ← mapM (getitem l) idxs; mret (y :: k)).
  destruct (getitem l i) as [a|e] eqn:Ha; [|done].
  destruct (mapM (getitem l) idxs) as [tl|e]; [|done].
  intros [= <-]. apply getitem_Ok in Ha. by exists a, tl.
Qed.

Lemma mapM_getitem_ok {A} (l : list A) (idxs : list nat) :
  Forall (λ i, i < length l) idxs →
  ∃ res, mapM (getitem l) idxs = Ok res ∧
         Forall2 (λ i d, l !! i = Some d) idxs res.
Proof.
  induction 1 as [|i idxs Hi _ (res & Hres & Hall)].
  - exists []. split; [done | constructor].
  - destruct (lookup_lt_is_Some_2 l i Hi) as [a Ha].
    exists (a :: res). split; [by apply mapM_getitem_cons | by constructor].
Qed.

Lemma mapM_getitem_take {A} (l : list A) (idxs : list nat) res (n : nat) :
  mapM (getitem l) idxs = Ok res →
  mapM (getitem l) (take n idxs) = Ok (take n res).
Proof.
  revert res n. induction idxs as [|i idxs IH]; intros res n Hres.
  - injection Hres as <-. by destruct n.
  - apply mapM_getitem_inv in Hres as (a & tl & -> & Ha & Htl).
    destruct n as [|n]; [done|]. cbn [take].
    apply mapM_getitem_cons; [done | by apply IH].
Qed.

Lemma mapM_getitem_length {A} (l : list A) (idxs : list nat) res :
  mapM (getitem l) idxs = Ok res → length res = length idxs.
Proof.
  revert res. induction idxs as [|i idxs IH]; intros res Hres.
  - by injection Hres as <-.
  - apply mapM_getitem_inv in Hres as (a & tl & -> & _ & Htl).
    cbn. f_equal. by apply IH.
Qed.

(** The loop over the scores finds a document for each of them. *)
Lemma score_loop_ok {A} (l : list A) (n : nat) :
  n = length l → ∃ read, mapM (getitem l) (seq 0 n) = Ok read.
Proof.
  intros ->. destruct (mapM_getitem_ok l (seq 0 (length l))) as (read & ? & _).
  - apply Forall_forall. intros i Hi%elem_of_seq. lia.
  - by exists read.
Qed.

Lemma embeddings_nonempty st model E q qv :
  embedding_ready st model E q qv → company_data st ≠ [] → E ≠ [].
Proof.
  intros (_ & _ & Hlen & _) Hne ->. by destruct (company_data st).
Qed.

Lemma search_data_embedding st model E q qv (k : Z) (t : Q) :
  embedding_ready st model E q qv →
  company_data st ≠ [] →
  search_data np st q k t =
    mapM (getitem (company_data st))
         (slice_to (reverse (argsort np (scores np E qv))) k).
Proof.
  intros Hready Hne.
  pose proof (embeddings_nonempty _ _ _ _ _ Hready Hne) as HE'.
  destruct Hready as (Hm & HE & Hlen & [rest Henc] & Hdim).
  unfold search_data. rewrite Hm, HE, Henc. cbn.
  rewrite similarities_ok by done. cbn.
  destruct (score_loop_ok (company_data st)
              (length (scores np E qv))) as [read ->]; [|done].
  by rewrite length_scores.
Qed.

(** *** The ranking [argsort(sims)[::-1]] *)

Lemma slice_to_take {A} (l : list A) (k : Z) :
  ∃ n, slice_to l k = take n l.
Proof. unfold slice_to. destruct (0 <=? k)%Z; eauto. Qed.

Lemma ranking_perm (xs : list Q) :
  argsort_sorts np →
  reverse (argsort np xs) ≡ₚ seq 0 (length xs).
Proof. intros Hsort. rewrite reverse_Permutation. apply Hsort. Qed.

Lemma ranking_length (xs : list Q) :
  argsort_sorts np → length (reverse (argsort np xs)) = length xs.
Proof.
  intros Hsort. rewrite (Permutation_length (ranking_perm xs Hsort)).
  apply length_seq.
Qed.

Lemma ranking_elem (xs : list Q) (a : nat) :
  argsort_sorts np →
  a ∈ reverse (argsort np xs) ↔ a < length xs.
Proof.
  intros Hsort. rewrite (ranking_perm xs Hsort), elem_of_seq. lia.
Qed.

Lemma ranking_NoDup (xs : list Q) :
  argsort_sorts np → NoDup (reverse (argsort np xs)).
Proof. intros Hsort. rewrite (ranking_perm xs Hsort). apply NoDup_seq. Qed.

Lemma ranking_descending (xs : list Q) i j a b xa xb :
  argsort_sorts np →
  i ≤ j →
  reverse (argsort np xs) !! i = Some a →
  reverse (argsort np xs) !! j = Some b →
  xs !! a = Some xa → xs !! b = Some xb →
  (xb <= xa)%Q.
Proof.
  intros Hsort Hij [Ha Hi]%reverse_lookup_Some [Hb Hj]%reverse_lookup_Some.
  intros Hxa Hxb. destruct (Hsort xs) as [_ Hasc].
  eapply (Hasc _ _ b a); [|done..]. lia.
Qed.

Lemma ranking_ties (xs : list Q) i j a b xa xb :
  argsort_stable np →
  i < j →
  reverse (argsort np xs) !! i = Some a →
  reverse (argsort np xs) !! j = Some b →
  xs !! a = Some xa → xs !! b = Some xb →
  (xa == xb)%Q →
  b < a.
Proof.
  intros Hstable Hij [Ha Hi]%reverse_lookup_Some [Hb Hj]%reverse_lookup_Some.
  intros Hxa Hxb Heq.
  eapply (Hstable xs _ _ b a xb xa); [|done..|by symmetry]. lia.
Qed.

Lemma slice_to_bound (xs : list Q) (k : Z) :
  argsort_sorts np →
  Forall (λ i, i < length xs) (slice_to (reverse (argsort np xs)) k).
Proof.
  intros Hsort. destruct (slice_to_take (reverse (argsort np xs)) k) as [n ->].
  apply Forall_forall. intros a [i [Ha _]]%elem_of_take.
  apply (ranking_elem xs a Hsort). by eapply list_elem_of_lookup_2.
Qed.

(** In embedding mode over a non-empty corpus the search never raises,
    whatever [top_k] is. *)
Lemma search_data_embedding_ok st model E q qv (k : Z) (t : Q) :
  argsort_sorts np →
  embedding_ready st model E q qv →
  company_data st ≠ [] →
  ∃ res,
    search_data np st q k t = Ok res ∧
    docs_at st (slice_to (reverse (argsort np (scores np E qv))) k) res.
Proof.
  intros Hsort Hready Hne.
  rewrite (search_data_embedding _ _ _ _ _ _ _ Hready Hne).
  apply mapM_getitem_ok. destruct Hready as (_ & _ & Hlen & _).
  rewrite <- Hlen, <- (length_scores E qv).
  by apply slice_to_bound.
Qed.

(** C1. In embedding mode, for a non-empty corpus and [top_k = k >= 1], the
    search returns exactly [min k n] documents: those at the first
    [min k n] positions of a ranking of all corpus indices without
    repetition, along which the similarity to the encoded query, computed as
    [(d . q) / (|d| * |q| + 1e-10)], never increases, and which no left-out
    document beats. *)
Theorem embedding_search_top_k st model E q qv (k : Z) (t : Q) :
  argsort_sorts np →
  embedding_ready st model E q qv →
  company_data st ≠ [] →
  (1 ≤ k)%Z →
  ∃ idxs res,
    search_data np st q k t = Ok res ∧
    length res = Z.to_nat k `min` length (company_data st) ∧
    docs_at st idxs res ∧
    NoDup idxs ∧
    descending np E qv idxs ∧
    dominates np E qv idxs.
Proof.
  intros Hsort Hready Hne Hk.
  set (sims := scores np E qv).
  destruct (search_data_embedding_ok st model E q qv k t Hsort Hready Hne)
    as (res & Hres & Hdocs). fold sims in Hdocs.
  assert (slice_to (reverse (argsort np sims)) k
          = take (Z.to_nat k) (reverse (argsort np sims))) as Hslice.
  { unfold slice_to. by destruct (Z.leb_spec 0 k); [|lia]. }
  rewrite Hslice in Hdocs.
  assert (length sims = length (company_data st)) as Hn.
  { unfold sims. rewrite length_scores.
    by destruct Hready as (_ & _ & ? & _). }
  assert (∀ p a, reverse (argsort np sims) !! p = Some a →
                 sims !! a = Some (cosine np E qv a)) as Hscore.
  { intros p a Hp. apply scores_lookup. split; [|done].
    rewrite <- (length_scores E qv). apply (ranking_elem sims a Hsort).
    by eapply list_elem_of_lookup_2. }
  exists (take (Z.to_nat k) (reverse (argsort np sims))), res.
  split; [done|]. split; [|split; [done|split; [|split]]].
  - rewrite <- (Forall2_length _ _ _ Hdocs), length_take.
    by rewrite ranking_length, Hn.
  - eapply sublist_NoDup; [by apply ranking_NoDup | apply sublist_take].
  - intros i j a b Hij [Ha _]%lookup_take_Some [Hb _]%lookup_take_Some.
    eapply (ranking_descending sims i j a b); eauto.
  - intros a b [i [Ha Hi]]%elem_of_take Hb Hlt.
    assert (b ∈ reverse (argsort np sims)) as [j Hj]%list_elem_of_lookup_1.
    { apply ranking_elem; [done|]. unfold sims. by rewrite length_scores. }
    assert (Z.to_nat k ≤ j) as Hkj.
    { destruct (decide (Z.to_nat k ≤ j)) as [|Hnle]; [done|].
      exfalso. apply Hb, elem_of_take. exists j. split; [done | lia]. }
    eapply (ranking_descending sims i j a b); eauto. lia.
Qed.

(** C7, as the code has it. The ranking is the ascending [argsort] read
    backwards, ties included: of two returned documents with equal
    similarity, the one that comes first is the one [argsort] lists later.
    The code adds no tie-break of its own, so the order of such documents is
    the one [np.argsort] happens to give, reversed; if that sort is stable it
    is the descending order of the corpus positions. *)
Theorem embedding_ties_follow_argsort st model E q qv (k : Z) (t : Q) :
  argsort_sorts np →
  embedding_ready st model E q qv →
  company_data st ≠ [] →
  returns_with_ties np st E q qv k t
    (λ a b, before (argsort np (scores np E qv)) b a) ∧
  (argsort_stable np →
   returns_with_ties np st E q qv k t (λ a b, b < a)).
Proof.
  intros Hsort Hready Hne.
  set (sims := scores np E qv).
  destruct (search_data_embedding_ok st model E q qv k t Hsort Hready Hne)
    as (res & Hres & Hdocs). fold sims in Hdocs.
  destruct (slice_to_take (reverse (argsort np sims)) k) as [n Hn].
  rewrite Hn in Hdocs.
  assert (∀ p a, reverse (argsort np sims) !! p = Some a →
                 sims !! a = Some (cosine np E qv a)) as Hscore.
  { intros p a Hp. apply scores_lookup. split; [|done].
    rewrite <- (length_scores E qv). apply (ranking_elem sims a Hsort).
    by eapply list_elem_of_lookup_2. }
  split.
  - exists (take n (reverse (argsort np sims))), res.
    split; [done|]. split; [done|].
    intros i j a b Hij [Ha _]%lookup_take_Some [Hb _]%lookup_take_Some _.
    apply reverse_lookup_Some in Ha as [Ha Hi].
    apply reverse_lookup_Some in Hb as [Hb Hj].
    eexists _, _. split; [|by split]. lia.
  - intros Hstable.
    exists (take n (reverse (argsort np sims))), res.
    split; [done|]. split; [done|].
    intros i j a b Hij [Ha _]%lookup_take_Some [Hb _]%lookup_take_Some Heq.
    eapply (ranking_ties sims i j a b); eauto.
Qed.

(** C9, for a corpus that is not empty. In embedding mode [top_k = 0] yields
    the empty list, and a negative [top_k = -m] yields the first
    [max 0 (n - m)] documents of the full ranking (the result for
    [top_k = n]): the value is neither rejected nor clamped. *)
Theorem embedding_top_k_not_positive st model E q qv (t : Q) :
  argsort_sorts np →
  embedding_ready st model E q qv →
  company_data st ≠ [] →
  search_data np st q 0 t = Ok [] ∧
  ∀ m : nat, 0 < m →
    ∃ full,
      search_data np st q (Z.of_nat (length (company_data st))) t = Ok full ∧
      length full = length (company_data st) ∧
      search_data np st q (- Z.of_nat m) t
        = Ok (take (length (company_data st) - m) full).
Proof.
  intros Hsort Hready Hne.
  set (sims := scores np E qv).
  assert (length (reverse (argsort np sims)) = length (company_data st))
    as Hlen.
  { rewrite ranking_length by done. unfold sims. rewrite length_scores.
    by destruct Hready as (_ & _ & ? & _). }
  split.
  { by rewrite (search_data_embedding _ _ _ _ _ _ _ Hready Hne). }
  intros m Hm.
  destruct (search_data_embedding_ok st model E q qv
              (Z.of_nat (length (company_data st))) t Hsort Hready Hne)
    as (full & Hfull & Hdocs).
  rewrite (search_data_embedding _ _ _ _ _ _ _ Hready Hne) in Hfull.
  fold sims in Hfull, Hdocs.
  assert (slice_to (reverse (argsort np sims))
            (Z.of_nat (length (company_data st)))
          = reverse (argsort np sims)) as Hall.
  { unfold slice_to.
    destruct (Z.leb_spec 0 (Z.of_nat (length (company_data st)))); [|lia].
    rewrite Nat2Z.id. apply take_ge. lia. }
  rewrite Hall in Hfull, Hdocs.
  exists full. split.
  { rewrite (search_data_embedding _ _ _ _ _ _ _ Hready Hne). fold sims.
    by rewrite Hall. }
  split.
  { by rewrite <- (Forall2_length _ _ _ Hdocs). }
  rewrite (search_data_embedding _ _ _ _ _ _ _ Hready Hne). fold sims.
  assert (slice_to (reverse (argsort np sims)) (- Z.of_nat m)
          = take (length (company_data st) - m) (reverse (argsort np sims)))
    as ->.
  { unfold slice_to. destruct (Z.leb_spec 0 (- Z.of_nat m)); [lia|].
    f_equal. lia. }
  by apply mapM_getitem_take.
Qed.

End Embedding.

(** ** Threshold, load failure, empty query, request facade *)

Section Facade.

Context {py : Python}.
Variable np : NumPy.

(** C2. The similarity threshold has no influence on the result. *)
Theorem threshold_has_no_effect (st : Server) (q : string) (k : Z) (t1 t2 : Q) :
  search_data np st q k t1 = search_data np st q k t2.
Proof. reflexivity. Qed.

Lemma load_fails_raises (env : Env) :
  load_fails env ↔ ∃ e, load_try env = Raise e.
Proof.
  unfold load_fails, load_try.
  destruct (read_json env) as [data|e1]; cbn.
  - destruct (make_model env) as [model|e2]; cbn.
    + destruct (encode model (map doc_text data)) as [embs|e3] eqn:Henc; cbn.
      * split; [|by intros [e ?]].
        intros [[e ?] | [[e ?] | (d & m & e & [= <-] & [= <-] & He)]];
          congruence.
      * split; [by eauto|]. intros _. right. right.
        by exists data, model, e3.
    + split; [by eauto|]. intros _. right. left. by eexists.
  - split; [by eauto|]. intros _. left. by eexists.
Qed.

Lemma load_fails_degraded (env : Env) :
  load_fails env → load_data env = degraded.
Proof.
  intros [e He]%load_fails_raises. unfold load_data. by rewrite He.
Qed.

(** C6. When the load fails, for whichever cause, the store is left with an
    empty corpus in keyword mode, and every later search returns a result
    (the empty list) instead of raising. *)
Theorem failed_load_stays_queryable (env : Env) (q : string) (k : Z) (t : Q) :
  load_fails env →
  load_data env = degraded ∧
  company_data (load_data env) = [] ∧
  keyword_mode (load_data env) = true ∧
  search_data np (load_data env) q k t = Ok [].
Proof.
  intros Hfail. rewrite (load_fails_degraded env Hfail). done.
Qed.

Lemma search_data_empty_keyword (st : Server) (k : Z) (t : Q) :
  keyword_mode st = true →
  search_data np st "" k t = Ok (company_data st).
Proof.
  intros Hmode. rewrite search_data_keyword by done.
  f_equal. apply filter_all, matches_empty.
Qed.


Lemma format_results_map (found : list Doc) :
  format_results found = to_item <$> found.
Proof.
  unfold format_results.
  enough (∀ acc, foldl (λ formatted_results r,
                          formatted_results ++ [to_item r]) acc found
                 = acc ++ (to_item <$> found)) as H by apply (H []).
  induction found as [|d found IH]; intros acc; cbn.
  - by rewrite app_nil_r.
  - by rewrite IH, <- app_assoc.
Qed.

Lemma handle_request_eq (st : Server) (request : gmap string string) :
  handle_request np st request =
    match search_data np st (default "" (request !! "query")) 3 (3 # 10) with
    | Ok found => Ok (envelope (default "" (request !! "query")) found)
    | Raise e => Raise e
    end.
Proof.
  unfold handle_request, envelope.
  destruct (search_data _ _ _ _ _) as [found|e]; cbn; [|done].
  by rewrite format_results_map.
Qed.

(** C5. For a request with the query [q], [handle_request] searches for [q]
    with [top_k = 3] and threshold [0.3] and wraps what the search returns:
    one entry per document, in order, with the title, the content and the
    source ["Company Database - " + id]; the query echoed; and the number of
    entries. An exception of the search passes through. *)
Theorem handle_request_envelope (st : Server) (request : gmap string string)
    (q : string) :
  request !! "query" = Some q →
  match search_data np st q 3 (3 # 10) with
  | Ok found =>
      handle_request np st request =
        Ok {| results := Some (map to_item found);
              query := Some q;
              total_results := Some (length (map to_item found)) |}
  | Raise e => handle_request np st request = Raise e
  end.
Proof.
  intros Hq. rewrite handle_request_eq, Hq. cbn.
  by destruct (search_data _ _ _ _ _).
Qed.

(** C10, as the code has it. A request without the key [query] is served as
    the empty query, and the missing key raises nothing: when the search for
    [""] returns, the response echoes [""] and carries the results of that
    search; when it raises, the same exception leaves [handle_request]. In
    keyword mode the search returns, and the results are the whole corpus. *)
Theorem handle_request_missing_query (st : Server)
    (request : gmap string string) :
  request !! "query" = None →
  match search_data np st "" 3 (3 # 10) with
  | Ok found =>
      handle_request np st request = Ok (envelope "" found) ∧
      query (envelope "" found) = Some ""
  | Raise e => handle_request np st request = Raise e
  end ∧
  (keyword_mode st = true →
   handle_request np st request = Ok (envelope "" (company_data st))).
Proof.
  intros Hnone. rewrite handle_request_eq, Hnone. cbn [default].
  split.
  - by destruct (search_data np st "" 3 (3 # 10)).
  - intros Hmode. by rewrite search_data_empty_keyword.
Qed.

End Facade.

(** ** Response formatter *)

Section Formatter.
Import PyStrFacts.

Lemma append_result_entry (text : string) (r : ResultItem) :
  append_result text r = text +:+ entry r.
Proof.
  unfold append_result, entry. by rewrite !append_assoc.
Qed.

Lemma foldl_append_result (text : string) (rs : list ResultItem) :
  foldl append_result text rs = text +:+ entries rs.
Proof.
  revert text. induction rs as [|r rs IH]; intros text; cbn [foldl entries].
  - by rewrite append_nil_r.
  - by rewrite IH, append_result_entry, append_assoc.
Qed.

Lemma header_not_no_information (body : string) :
  header +:+ body ≠ no_information.
Proof. discriminate. Qed.

Lemma format_for_llm_results (r : Response) (x : ResultItem)
    (rs : list ResultItem) :
  results r = Some (x :: rs) →
  format_for_llm (Some r) = header +:+ entries (x :: rs).
Proof.
  intros Hres. unfold format_for_llm, dict_empty. rewrite Hres.
  apply foldl_append_result.
Qed.

Lemma format_for_llm_nothing (r : Response) :
  results r = None ∨ results r = Some [] →
  format_for_llm (Some r) = no_information.
Proof.
  unfold format_for_llm, dict_empty.
  intros [-> | ->]; by destruct (query r), (total_results r).
Qed.

(** C4. [format_for_llm] answers with the fixed sentence exactly when there
    is no response or the response has no (or an empty) result list;
    otherwise the text is the header followed by one block per result, in
    order: the title between triple dashes, the content, a blank line. *)
Theorem format_for_llm_spec :
  (∀ response,
     format_for_llm response = no_information ↔
     response = None ∨
     ∃ r, response = Some r ∧ (results r = None ∨ results r = Some [])) ∧
  (∀ r x rs,
     results r = Some (x :: rs) →
     format_for_llm (Some r) = header +:+ entries (x :: rs)) ∧
  format_for_llm
    (Some {| results := Some [ {| title := "T1"; content := "C1";
                                  source := "Company Database - 1" |};
                               {| title := "T2"; content := "C2";
                                  source := "Company Database - 2" |} ];
             query := Some "q";
             total_results := Some 2 |})
  = "COMPANY INFORMATION:" +:+ PyStr.nl +:+ PyStr.nl
    +:+ "--- T1 ---" +:+ PyStr.nl +:+ "C1" +:+ PyStr.nl +:+ PyStr.nl
    +:+ "--- T2 ---" +:+ PyStr.nl +:+ "C2" +:+ PyStr.nl +:+ PyStr.nl.
Proof.
  split; [|split; [apply format_for_llm_results | reflexivity]].
  intros [r|]; [|split; [by left | done]]. split.
  - intros Hfmt. right. exists r. split; [done|].
    destruct (results r) as [[|x rs]|] eqn:Hres; [by right | | by left].
    rewrite (format_for_llm_results r x rs Hres) in Hfmt.
    by apply header_not_no_information in Hfmt.
  - intros [[=] | (r' & [= <-] & Hres)]. by apply format_for_llm_nothing.
Qed.

End Formatter.

(** ** The reference numpy instance sorts, and its sort is stable *)

Module RefNumPyFacts.
Import RefNumPy.

Lemma lex_le (p q : nat * Q) : lex p q → (p.2 <= q.2)%Q.
Proof.
  intros [Hlt | [Heq _]]; [by apply Qlt_le_weak | by apply Qle_lteq; right].
Qed.

Lemma insert_perm (p : nat * Q) (l : list (nat * Q)) : insert p l ≡ₚ p :: l.
Proof.
  induction l as [|h t IH]; cbn; [done|].
  destruct (Qle_bool p.2 h.2); [done|]. by rewrite IH, Permutation_swap.
Qed.

Lemma sort_perm (l : list (nat * Q)) : sort l ≡ₚ l.
Proof.
  induction l as [|p t IH]; cbn; [done|]. by rewrite insert_perm, IH.
Qed.

Lemma insert_sorted (p : nat * Q) (l : list (nat * Q)) :
  StronglySorted lex l →
  Forall (λ h, p.1 < h.1) l →
  StronglySorted lex (insert p l).
Proof.
  induction l as [|h t IH]; intros Hsorted Hidx; cbn.
  - repeat constructor.
  - apply StronglySorted_cons in Hsorted as [Hh Ht].
    apply Forall_cons in Hidx as [Hph Hpt].
    destruct (Qle_bool p.2 h.2) eqn:Hle.
    + apply Qle_bool_iff in Hle.
      assert (∀ e, (p.2 <= e.2)%Q → p.1 < e.1 → lex p e) as Hlex.
      { intros e [Hlt | Heq]%Qle_lteq Hi; [by left | by right]. }
      apply StronglySorted_cons. split; [|by apply StronglySorted_cons].
      apply Forall_cons. split; [by apply Hlex|].
      rewrite Forall_forall in Hh, Hpt |- *. intros e He.
      apply Hlex; [|by apply Hpt].
      eapply Qle_trans; [done | by apply lex_le, Hh].
    + assert (h.2 < p.2)%Q as Hlt.
      { apply Qnot_le_lt. intros Hle'%Qle_bool_iff. congruence. }
      apply StronglySorted_cons. split; [|by apply IH].
      rewrite insert_perm. apply Forall_cons. split; [by left | done].
Qed.

Lemma sort_sorted (l : list (nat * Q)) :
  StronglySorted (λ p q, p.1 < q.1) l → StronglySorted lex (sort l).
Proof.
  induction l as [|p t IH]; intros Hl; cbn; [constructor|].
  apply StronglySorted_cons in Hl as [Hp Ht].
  apply insert_sorted; [by apply IH | by rewrite sort_perm].
Qed.

Lemma zip_seq_lookup (xs : list Q) (k i a : nat) (x : Q) :
  zip (seq k (length xs)) xs !! i = Some (a, x) ↔
  a = k + i ∧ xs !! i = Some x.
Proof.
  split.
  - intros (a' & x' & [= -> ->] & [-> _]%lookup_seq & Hx)%lookup_zip_with_Some.
    done.
  - intros [-> Hx]. apply lookup_zip_with_Some.
    exists (k + i), x. split; [done|]. split; [|done].
    apply lookup_seq. split; [done|]. by eapply lookup_lt_Some.
Qed.

Lemma zip_seq_increasing (xs : list Q) (k : nat) :
  StronglySorted (λ p q : nat * Q, p.1 < q.1) (zip (seq k (length xs)) xs).
Proof.
  revert k. induction xs as [|x xs IH]; intros k; cbn; [constructor|].
  apply StronglySorted_cons. split; [|apply IH].
  apply Forall_forall. intros [a y] [i Hi]%list_elem_of_lookup_1.
  apply zip_seq_lookup in Hi as [-> _]. cbn. lia.
Qed.

Lemma StronglySorted_lookup {A} (R : A → A → Prop) (l : list A) i j x y :
  StronglySorted R l → i < j → l !! i = Some x → l !! j = Some y → R x y.
Proof.
  intros Hl. revert i j. induction Hl as [|h t Ht IH Hh]; intros i j Hij Hi Hj.
  - done.
  - destruct j as [|j]; [lia|]. destruct i as [|i].
    + injection Hi as <-. rewrite Forall_forall in Hh. apply Hh.
      by eapply list_elem_of_lookup_2.
    + apply (IH i j); [lia | done..].
Qed.

(** Position [i] of the result holds an index together with its value. *)
Lemma argsort_lookup (xs : list Q) (i a : nat) (xa : Q) :
  argsort xs !! i = Some a → xs !! a = Some xa →
  sort (zip (seq 0 (length xs)) xs) !! i = Some (a, xa).
Proof.
  unfold argsort. rewrite list_lookup_fmap.
  destruct (sort _ !! i) as [[a' x']|] eqn:Hi; [|done].
  intros [= ->] Hxa.
  assert ((a, x') ∈ zip (seq 0 (length xs)) xs) as [j Hj]%list_elem_of_lookup_1.
  { rewrite <- sort_perm. by eapply list_elem_of_lookup_2. }
  apply zip_seq_lookup in Hj as [-> Hx]. cbn in Hxa. congruence.
Qed.

Lemma argsort_perm (xs : list Q) : argsort xs ≡ₚ seq 0 (length xs).
Proof.
  unfold argsort. rewrite sort_perm. rewrite fst_zip; [done|].
  by rewrite length_seq.
Qed.

Lemma np_sorts : argsort_sorts np.
Proof.
  intros xs. split; [apply argsort_perm|]. cbn.
  intros i j a b xa xb Hij Ha Hb Hxa Hxb.
  pose proof (argsort_lookup xs i a xa Ha Hxa) as Hi.
  pose proof (argsort_lookup xs j b xb Hb Hxb) as Hj.
  destruct (decide (i = j)) as [->|Hne].
  - rewrite Hi in Hj. injection Hj as -> ->. apply Qle_refl.
  - apply (lex_le (a, xa) (b, xb)).
    eapply (StronglySorted_lookup lex _ i j);
      [apply sort_sorted, zip_seq_increasing | lia | done..].
Qed.

Lemma np_stable : argsort_stable np.
Proof.
  intros xs i j a b xa xb Hij Ha Hb Hxa Hxb Heq. cbn in Ha, Hb.
  pose proof (argsort_lookup xs i a xa Ha Hxa) as Hi.
  pose proof (argsort_lookup xs j b xb Hb Hxb) as Hj.
  destruct (StronglySorted_lookup lex _ i j (a, xa) (b, xb)
              (sort_sorted _ (zip_seq_increasing xs 0)) Hij Hi Hj)
    as [Hlt | [_ Hab]]; [|done].
  cbn in Hlt. by apply Qlt_not_eq in Hlt.
Qed.

(** The second instance sorts as well. *)
Lemma np_rev_sorts : argsort_sorts np_rev.
Proof.
  intros xs. cbn. unfold argsort_rev.
  destruct (np_sorts (map Qopp xs)) as [Hperm Hasc]. cbn in Hperm, Hasc.
  rewrite length_map in Hperm. split; [by rewrite reverse_Permutation|].
  intros i j a b xa xb Hij [Ha Hi]%reverse_lookup_Some
    [Hb Hj]%reverse_lookup_Some Hxa Hxb.
  assert (- xb <= - xa)%Q as Hle.
  { eapply (Hasc _ _ b a); [|done..| |].
    - lia.
    - by rewrite list_lookup_fmap, Hxb.
    - by rewrite list_lookup_fmap, Hxa. }
  apply Qopp_le_compat in Hle. by rewrite !Qopp_involutive in Hle.
Qed.

End RefNumPyFacts.

(** ** The statements at the example corpus *)

Module ExampleFacts.
Import Example.

Lemma store_ready (q : string) :
  embedding_ready store model embeddings q (embed q).
Proof.
  repeat split; [by exists []|].
  unfold embed. destruct (PyStr.contains _ _); by repeat constructor.
Qed.

Lemma tied_store_ready (q : string) :
  embedding_ready tied_store model tied_embeddings q (embed q).
Proof.
  repeat split; [by exists []|].
  unfold embed. destruct (PyStr.contains _ _); by repeat constructor.
Qed.

Example search_question :
  search_data RefNumPy.np store question 1 (3 # 10) = Ok [profile].
Proof. vm_compute. reflexivity. Qed.

Example search_tied :
  search_data RefNumPy.np tied_store question 3 (3 # 10)
  = Ok [support; products].
Proof. vm_compute. reflexivity. Qed.

(** Exactly, the first document of [scaled_store] scores higher than the
    second, [50 / (50 + 1e-10)] against [25 / (25 + 1e-10)]; when the sum
    absorbs [1e-10] both score 1, and the tie puts the second first. *)
Example search_scaled_exact :
  search_data RefNumPy.np scaled_store question 2 (3 # 10)
  = Ok [profile; products].
Proof. vm_compute. reflexivity. Qed.

Example search_scaled_absorbing :
  search_data RefNumPy.np_absorbing scaled_store question 2 (3 # 10)
  = Ok [products; profile].
Proof. vm_compute. reflexivity. Qed.

Example search_keyword :
  search_data RefNumPy.np keyword_store "TECHCORP" 1 (3 # 10)
  = Ok [profile; products].
Proof. vm_compute. reflexivity. Qed.

Example format_question :
  (response ← request_company_data RefNumPy.np store question;
   Ok (format_for_llm (Some response)))
  = Ok (header +:+ entries [to_item profile; to_item products]).
Proof. vm_compute. reflexivity. Qed.

Lemma embedding_search_top_k_witness :
  ∃ idxs res,
    search_data RefNumPy.np store question 1 (3 # 10) = Ok res ∧
    length res = Z.to_nat 1 `min` length (company_data store) ∧
    docs_at store idxs res ∧
    NoDup idxs ∧
    descending RefNumPy.np embeddings (embed question) idxs ∧
    dominates RefNumPy.np embeddings (embed question) idxs.
Proof.
  apply (embedding_search_top_k RefNumPy.np store model embeddings question
           (embed question) 1 (3 # 10) RefNumPyFacts.np_sorts
           (store_ready question)); [discriminate | lia].
Defined.

Lemma keyword_fallback_all_matches_witness :
  keyword_mode keyword_store = true ∧
  ∃ res,
    search_data RefNumPy.np keyword_store "TECHCORP" 1 (3 # 10) = Ok res ∧
    res = filter (matches "TECHCORP") (company_data keyword_store) ∧
    (∀ d, d ∈ company_data keyword_store →
          (d ∈ res ↔ matches "TECHCORP" d)) ∧
    res `sublist_of` company_data keyword_store ∧
    (∀ k' t', search_data RefNumPy.np keyword_store "TECHCORP" k' t' = Ok res).
Proof.
  split; [reflexivity|].
  apply (keyword_fallback_all_matches RefNumPy.np keyword_store "TECHCORP" 1
           (3 # 10)). reflexivity.
Defined.

Lemma handle_request_envelope_witness :
  request !! "query" = Some "TechCorp" ∧
  match search_data RefNumPy.np keyword_store "TechCorp" 3 (3 # 10) with
  | Ok found =>
      handle_request RefNumPy.np keyword_store request =
        Ok {| results := Some (map to_item found);
              query := Some "TechCorp";
              total_results := Some (length (map to_item found)) |}
  | Raise e => handle_request RefNumPy.np keyword_store request = Raise e
  end.
Proof.
  split; [reflexivity|].
  apply (handle_request_envelope RefNumPy.np keyword_store request "TechCorp").
  reflexivity.
Defined.

Lemma failed_load_stays_queryable_witness :
  load_fails missing_file ∧
  load_data missing_file = degraded ∧
  company_data (load_data missing_file) = [] ∧
  keyword_mode (load_data missing_file) = true ∧
  search_data RefNumPy.np (load_data missing_file) question 3 (3 # 10) = Ok [].
Proof.
  assert (load_fails missing_file) as Hfail.
  { left. exists OSError. reflexivity. }
  split; [exact Hfail|].
  apply (failed_load_stays_queryable RefNumPy.np missing_file question 3
           (3 # 10) Hfail).
Defined.

(** With the second instance the same search returns the tied documents the
    other way round. *)
Example search_tied_rev :
  search_data RefNumPy.np_rev tied_store question 3 (3 # 10)
  = Ok [products; support].
Proof. vm_compute. reflexivity. Qed.

(** C7, as stated, does not follow from what [np.argsort] promises: with
    the stable sort, the store with two equal embeddings returns its
    documents in the order (1, 0) of their corpus positions. *)
Lemma ties_not_in_corpus_order :
  ¬ ∀ np, argsort_sorts np →
          returns_with_ties np tied_store tied_embeddings question
            (embed question) 3 (3 # 10) (λ a b, a < b).
Proof.
  intros Hall.
  destruct (Hall RefNumPy.np RefNumPyFacts.np_sorts)
    as (idxs & res & Hres & Hdocs & Hties).
  rewrite search_tied in Hres. injection Hres as <-.
  unfold docs_at in Hdocs.
  apply Forall2_cons_inv_r in Hdocs as (a & idxs' & Ha & Hdocs & ->).
  apply Forall2_cons_inv_r in Hdocs as (b & idxs'' & Hb & Hdocs & ->).
  apply Forall2_nil_inv_r in Hdocs as ->.
  assert (a = 1) as ->.
  { destruct a as [|[|a]]; [discriminate | done | discriminate]. }
  assert (b = 0) as ->.
  { destruct b as [|[|b]]; [done | discriminate | discriminate]. }
  assert (1 < 0); [|lia].
  apply (Hties 0 1 1 0); [lia | reflexivity | reflexivity |].
  vm_compute. reflexivity.
Qed.

Lemma embedding_ties_follow_argsort_witness :
  returns_with_ties RefNumPy.np tied_store tied_embeddings question
    (embed question) 3 (3 # 10)
    (λ a b, before (argsort RefNumPy.np
                      (scores RefNumPy.np tied_embeddings (embed question)))
                   b a) ∧
  (argsort_stable RefNumPy.np →
   returns_with_ties RefNumPy.np tied_store tied_embeddings question
     (embed question) 3 (3 # 10) (λ a b, b < a)).
Proof.
  apply (embedding_ties_follow_argsort RefNumPy.np tied_store model
           tied_embeddings question (embed question) 3 (3 # 10)
           RefNumPyFacts.np_sorts (tied_store_ready question)).
  discriminate.
Defined.



(** C9, as stated, fails in embedding mode over the empty corpus: with
    [top_k = 0] the search raises instead of returning the empty list. *)
Lemma top_k_zero_raises_on_empty_corpus :
  keyword_mode empty_store = false ∧
  search_data RefNumPy.np empty_store question 0 (3 # 10) ≠ Ok [].
Proof. split; [reflexivity | discriminate]. Qed.

Lemma embedding_top_k_not_positive_witness :
  search_data RefNumPy.np store question 0 (3 # 10) = Ok [] ∧
  ∀ m : nat, 0 < m →
    ∃ full,
      search_data RefNumPy.np store question
        (Z.of_nat (length (company_data store))) (3 # 10) = Ok full ∧
      length full = length (company_data store) ∧
      search_data RefNumPy.np store question (- Z.of_nat m) (3 # 10)
        = Ok (take (length (company_data store) - m) full).
Proof.
  apply (embedding_top_k_not_positive RefNumPy.np store model embeddings
           question (embed question) (3 # 10) RefNumPyFacts.np_sorts
           (store_ready question)).
  discriminate.
Defined.

(** C10, as stated, fails in embedding mode over the empty corpus: the
    request without a query is answered by the exception of the search. *)
Lemma missing_query_raises_on_empty_corpus :
  request_without_query !! "query" = None ∧
  handle_request RefNumPy.np empty_store request_without_query
  = Raise ValueError ∧
  ¬ ∃ response,
      handle_request RefNumPy.np empty_store request_without_query
      = Ok response.
Proof.
  split; [reflexivity|]. split; [reflexivity|]. intros [response Hresp].
  discriminate Hresp.
Qed.

Lemma handle_request_missing_query_witness :
  request_without_query !! "query" = None ∧
  match search_data RefNumPy.np keyword_store "" 3 (3 # 10) with
  | Ok found =>
      handle_request RefNumPy.np keyword_store request_without_query
      = Ok (envelope "" found) ∧
      query (envelope "" found) = Some ""
  | Raise e =>
      handle_request RefNumPy.np keyword_store request_without_query = Raise e
  end ∧
  (keyword_mode keyword_store = true →
   handle_request RefNumPy.np keyword_store request_without_query
   = Ok (envelope "" (company_data keyword_store))).
Proof.
  split; [reflexivity|].
  apply (handle_request_missing_query RefNumPy.np keyword_store
           request_without_query). reflexivity.
Defined.

End ExampleFacts.

(** * Further properties of the retrieval core *)


(** ** The search, for any state and any numpy *)

Section SearchFacts.

Context {py : Python}.
Variable np : NumPy.

Lemma mapM_getitem_Forall2 {A} (l : list A) (idxs : list nat) res :
  mapM (getitem l) idxs = Ok res →
  Forall2 (λ i d, l !! i = Some d) idxs res.
Proof.
  revert res. induction idxs as [|i idxs IH]; intros res Hres.
  - injection Hres as <-. constructor.
  - apply mapM_getitem_inv in Hres as (a & tl & -> & Ha & Htl).
    constructor; [done | by apply IH].
Qed.

(** Once the embedding path has run through for one [top_k], the ranking it
    slices is the same for every [top_k]. *)
Lemma search_data_slices st q (k : Z) (t : Q) res :
  keyword_mode st = false →
  search_data np st q k t = Ok res →
  ∃ ranking, ∀ k' t',
    search_data np st q k' t'
    = mapM (getitem (company_data st)) (slice_to ranking k').
Proof.
  unfold keyword_mode, search_data.
  destruct (embedding_model st) as [model|]; [|done].
  destruct (doc_embeddings st) as [embs|]; [|done]. intros _.
  destruct (encode model [q]) as [encoded|]; [|done].
  change (Ok encoded ≫= ?f) with (f encoded). cbv beta.
  destruct (getitem encoded 0) as [query_emb|]; [|done].
  change (Ok query_emb ≫= ?f) with (f query_emb). cbv beta.
  destruct (similarities np embs query_emb) as [sims|]; [|done].
  change (Ok sims ≫= ?f) with (f sims). cbv beta.
  destruct (mapM (getitem (company_data st)) (seq 0 (length sims)))
    as [read|]; [|done].
  intros _. by exists (reverse (argsort np sims)).
Qed.

(** X1. Whatever the mode, the numpy routines and the parameters, a search
    that returns puts only documents of the corpus in its result. *)
Theorem search_results_from_corpus st q (k : Z) (t : Q) res :
  search_data np st q k t = Ok res →
  ∀ d, d ∈ res → d ∈ company_data st.
Proof.
  intros Hres d Hd. destruct (keyword_mode st) eqn:Hmode.
  - rewrite search_data_keyword in Hres by done. injection Hres as <-.
    by apply list_elem_of_filter in Hd as [_ ?].
  - destruct (search_data_slices st q k t res Hmode Hres) as [ranking Hall].
    rewrite Hall in Hres. apply mapM_getitem_Forall2 in Hres.
    apply list_elem_of_lookup_1 in Hd as [j Hj].
    destruct (Forall2_lookup_r _ _ _ _ _ Hres Hj) as (i & _ & Hi).
    by eapply list_elem_of_lookup_2.
Qed.

(** X2. On the embedding path a non-negative [top_k] bounds the number of
    documents returned; no assumption on [argsort] is needed. *)
Theorem embedding_search_at_most_top_k st q (k : Z) (t : Q) res :
  keyword_mode st = false →
  (0 ≤ k)%Z →
  search_data np st q k t = Ok res →
  length res ≤ Z.to_nat k.
Proof.
  intros Hmode Hk Hres.
  destruct (search_data_slices st q k t res Hmode Hres) as [ranking Hall].
  rewrite Hall in Hres. apply mapM_getitem_length in Hres. rewrite Hres.
  unfold slice_to. destruct (Z.leb_spec 0 k); [|lia].
  rewrite length_take. lia.
Qed.

(** X3. On the embedding path a smaller non-negative [top_k] returns a prefix
    of what a larger one returns: asking for more only appends. *)
Theorem embedding_search_prefix st q (k k' : Z) (t : Q) res' :
  keyword_mode st = false →
  (0 ≤ k ≤ k')%Z →
  search_data np st q k' t = Ok res' →
  search_data np st q k t = Ok (take (Z.to_nat k) res').
Proof.
  intros Hmode Hk Hres'.
  destruct (search_data_slices st q k' t res' Hmode Hres') as [ranking Hall].
  rewrite Hall in Hres'. rewrite Hall.
  unfold slice_to in *.
  destruct (Z.leb_spec 0 k); [|lia]. destruct (Z.leb_spec 0 k'); [|lia].
  apply (mapM_getitem_take _ _ _ (Z.to_nat k)) in Hres'.
  rewrite take_take in Hres'.
  by replace (Z.to_nat k `min` Z.to_nat k') with (Z.to_nat k) in Hres' by lia.
Qed.

(** X4. On the keyword path the case of the query is immaterial: a query and
    its lower-cased form, and any two queries that agree up to case, give
    the same result. *)
Theorem keyword_search_ignores_case st q (k : Z) (t : Q) :
  keyword_mode st = true →
  search_data np st (PyStr.lower q) k t = search_data np st q k t ∧
  ∀ q', PyStr.lower q' = PyStr.lower q →
        search_data np st q' k t = search_data np st q k t.
Proof.
  intros Hmode.
  assert (∀ q', PyStr.lower q' = PyStr.lower q →
                search_data np st q' k t = search_data np st q k t) as Hcase.
  { intros q' Hq'. rewrite !search_data_keyword by done. f_equal.
    apply list_filter_iff. intros d. unfold matches.
    by rewrite <- (str_lower_fold q'), Hq', str_lower_fold. }
  split; [|done]. apply Hcase, PyStrMore.lower_idemp.
Qed.

(** On ASCII text lowering keeps occurrences. *)
Lemma str_lower_substring (s t : string) :
  PyStr.substring s t → PyStr.is_ascii t = true →
  PyStr.substring (str_lower s) (str_lower t).
Proof.
  intros Hsub Ht.
  rewrite (str_lower_of_ascii t Ht).
  rewrite (str_lower_of_ascii s (PyStrMore.substring_is_ascii s t Hsub Ht)).
  by apply PyStrMore.substring_lower.
Qed.

Lemma matches_narrows (q1 q2 : string) (d : Doc) :
  PyStr.substring q1 q2 → PyStr.is_ascii q2 = true →
  matches q2 d → matches q1 d.
Proof.
  intros Hsub Hascii. pose proof (str_lower_substring q1 q2 Hsub Hascii).
  intros [Ht | Hc]; [left | right]; by eapply PyStrMore.substring_trans.
Qed.

(** X5. On the keyword path a longer ASCII query narrows the result: when
    [q1] occurs in the ASCII query [q2], the result for [q2] is the result
    for [q1] with some documents left out, the others in the same order. The
    documents need not be ASCII; for a query that is not ASCII this can fail
    (lowering depends on the context of a letter). *)
Theorem keyword_search_narrows st q1 q2 (k1 k2 : Z) (t1 t2 : Q) :
  keyword_mode st = true →
  PyStr.substring q1 q2 →
  PyStr.is_ascii q2 = true →
  ∃ res1 res2,
    search_data np st q1 k1 t1 = Ok res1 ∧
    search_data np st q2 k2 t2 = Ok res2 ∧
    res2 = filter (matches q2) res1 ∧
    res2 `sublist_of` res1.
Proof.
  intros Hmode Hsub Hascii. rewrite !search_data_keyword by done.
  eexists _, _. split; [done|]. split; [done|].
  assert (filter (matches q2) (company_data st)
          = filter (matches q2) (filter (matches q1) (company_data st))) as Heq.
  { rewrite list_filter_filter. apply list_filter_iff. intros d.
    split; [|tauto]. intros Hd. split; [done|]. by eapply matches_narrows. }
  split; [done|]. rewrite Heq. apply sublist_filter.
Qed.

End SearchFacts.

(** ** The store after construction *)

Section StoreFacts.

Context {py : Python}.
Variable np : NumPy.

Lemma load_try_Ok (env : Env) (st : Server) :
  load_try env = Ok st →
  ∃ data model embs,
    read_json env = Ok data ∧ make_model env = Ok model ∧
    encode model (map doc_text data) = Ok embs ∧
    st = {| company_data := data;
            doc_embeddings := Some embs;
            embedding_model := Some model |}.
Proof.
  unfold load_try.
  destruct (read_json env) as [data|]; [|done].
  destruct (make_model env) as [model|]; [|done]. cbn.
  destruct (encode model (map doc_text data)) as [embs|] eqn:Henc; [|done].
  cbn. intros [= <-]. by exists data, model, embs.
Qed.

(** X6. A server that is in keyword mode right after construction has an
    empty corpus: the [except] branch clears the documents along with the
    model, so the keyword fallback of a constructed server finds nothing,
    whatever the query. *)
Theorem keyword_mode_after_load_is_empty (env : Env) (q : string) (k : Z) (t : Q) :
  keyword_mode (setup_mcp env) = true →
  load_fails env ∧
  company_data (setup_mcp env) = [] ∧
  search_data np (setup_mcp env) q k t = Ok [].
Proof.
  unfold setup_mcp. intros Hmode.
  assert (load_fails env) as Hfail.
  { apply load_fails_raises. unfold load_data in Hmode.
    destruct (load_try env) as [st|e] eqn:Htry; [|by exists e].
    apply load_try_Ok in Htry as (data & model & embs & _ & _ & _ & ->).
    discriminate. }
  split; [done|]. by rewrite (load_fails_degraded env Hfail).
Qed.

Lemma regular_query (model : Model) (dim : nat) (q : string) :
  regular model dim →
  ∃ qv, encode model [q] = Ok [qv] ∧ length qv = dim.
Proof.
  intros Hreg. destruct (Hreg [q]) as ([|qv [|? ?]] & Henc & Hlen & Hdim);
    [done | | done].
  exists qv. split; [done|]. by apply Forall_cons in Hdim as [? _].
Qed.

(** X7. Construction followed by search: when the source is read, the model
    is constructed and it returns one row of a fixed dimension per text, the
    server holds one embedding per document, and every query with
    [top_k = k >= 0] is answered, without an exception, by exactly
    [min k n] documents of the source. *)
Theorem loaded_store_answers (env : Env) (data : list Doc) (model : Model)
    (dim : nat) (q : string) (k : Z) (t : Q) :
  argsort_sorts np →
  regular model dim →
  read_json env = Ok data →
  make_model env = Ok model →
  data ≠ [] →
  (0 ≤ k)%Z →
  (∃ embs, doc_embeddings (setup_mcp env) = Some embs ∧
           length embs = length data) ∧
  ∃ res,
    search_data np (setup_mcp env) q k t = Ok res ∧
    length res = Z.to_nat k `min` length data ∧
    ∀ d, d ∈ res → d ∈ data.
Proof.
  intros Hsort Hreg Hread Hmodel Hne Hk.
  destruct (Hreg (map doc_text data)) as (embs & Henc & Hlen & Hdim).
  rewrite length_map in Hlen.
  destruct (regular_query model dim q Hreg) as (qv & Hq & Hqv).
  assert (setup_mcp env = {| company_data := data;
                             doc_embeddings := Some embs;
                             embedding_model := Some model |}) as Hst.
  { unfold setup_mcp, load_data, load_try. rewrite Hread, Hmodel. cbn.
    by rewrite Henc. }
  rewrite Hst. cbn [doc_embeddings]. split; [by exists embs|].
  assert (embedding_ready
            {| company_data := data; doc_embeddings := Some embs;
               embedding_model := Some model |} model embs q qv) as Hready.
  { repeat split; [done | by exists [] |].
    eapply Forall_impl; [done|]. cbn. congruence. }
  destruct (search_data_embedding_ok np _ model embs q qv k t Hsort Hready
              Hne) as (res & Hres & Hdocs).
  exists res. split; [done|]. split.
  - rewrite <- (Forall2_length _ _ _ Hdocs). unfold slice_to.
    destruct (Z.leb_spec 0 k); [|lia].
    rewrite length_take, ranking_length, length_scores by done.
    by rewrite Hlen.
  - intros d [j Hj]%list_elem_of_lookup_1.
    destruct (Forall2_lookup_r _ _ _ _ _ Hdocs Hj) as (i & _ & Hi).
    by eapply list_elem_of_lookup_2.
Qed.

End StoreFacts.

(** ** From the request to the prompt context *)

Section ContextFacts.
Import PyStrFacts PyStrMore.

Context {py : Python}.
Variable np : NumPy.

Lemma request_company_data_eq (st : Server) (q : string) :
  request_company_data np st q =
    match search_data np st q 3 (3 # 10) with
    | Ok found => Ok (envelope q found)
    | Raise e => Raise e
    end.
Proof.
  unfold request_company_data. rewrite handle_request_eq.
  by rewrite lookup_insert_eq.
Qed.

Lemma format_envelope (q : string) (found : list Doc) :
  format_for_llm (Some (envelope q found)) =
    match found with
    | [] => no_information
    | _ => header +:+ entries (to_item <$> found)
    end.
Proof.
  destruct found as [|d found]; [done|].
  by apply format_for_llm_results.
Qed.

(** X8. The context handed to the prompt: the fixed sentence when the search
    finds nothing, the header and one block per document found otherwise;
    an exception of the search passes through the request and the formatter
    unchanged. *)
Theorem mcp_context_cases (st : Server) (q : string) :
  mcp_context np st q =
    match search_data np st q 3 (3 # 10) with
    | Ok [] => Ok no_information
    | Ok (d :: found) => Ok (header +:+ entries (to_item <$> d :: found))
    | Raise e => Raise e
    end.
Proof.
  unfold mcp_context. rewrite request_company_data_eq.
  destruct (search_data np st q 3 (3 # 10)) as [[|d found]|e]; [done| |done].
  change (Ok (envelope q (d :: found)) ≫= ?f) with (f (envelope q (d :: found))).
  cbv beta. by rewrite format_envelope.
Qed.

(** X9. After a failed load the context is the fixed sentence for every
    query: the failure never reaches the prompt as an exception. *)
Theorem failed_load_context (env : Env) (q : string) :
  load_fails env →
  mcp_context np (setup_mcp env) q = Ok no_information.
Proof.
  intros Hfail. unfold setup_mcp, mcp_context.
  rewrite request_company_data_eq, (load_fails_degraded env Hfail). done.
Qed.

Lemma entry_shows (r : ResultItem) :
  PyStr.substring (title r) (entry r) ∧ PyStr.substring (content r) (entry r).
Proof.
  unfold entry. split.
  - exists "--- ", (" ---" +:+ PyStr.nl +:+ content r +:+ PyStr.nl +:+ PyStr.nl).
    done.
  - exists ("--- " +:+ title r +:+ " ---" +:+ PyStr.nl), (PyStr.nl +:+ PyStr.nl).
    by rewrite !append_assoc.
Qed.

Lemma entries_shows (r : ResultItem) (rs : list ResultItem) :
  r ∈ rs → PyStr.substring (entry r) (entries rs).
Proof.
  induction rs as [|x rs IH]; [by intros ?%not_elem_of_nil|].
  intros [->|Hr]%elem_of_cons; cbn [entries].
  - apply substring_append_l, substring_refl.
  - by apply substring_append_r, IH.
Qed.

(** X10. Every document the search returns is in the context with its title
    and its content. *)
Theorem context_contains_documents (st : Server) (q : string)
    (found : list Doc) (d : Doc) :
  search_data np st q 3 (3 # 10) = Ok found →
  d ∈ found →
  ∃ ctx,
    mcp_context np st q = Ok ctx ∧
    PyStr.substring (doc_title d) ctx ∧
    PyStr.substring (doc_content d) ctx.
Proof.
  intros Hfound Hd. unfold mcp_context.
  rewrite request_company_data_eq, Hfound.
  change (Ok (envelope q found) ≫= ?f) with (f (envelope q found)). cbv beta.
  rewrite format_envelope.
  destruct found as [|d0 found]; [by apply not_elem_of_nil in Hd|].
  eexists. split; [done|].
  assert (PyStr.substring (entry (to_item d))
            (header +:+ entries (to_item <$> d0 :: found))) as Hentry.
  { apply substring_append_r, entries_shows, list_elem_of_fmap. by exists d. }
  destruct (entry_shows (to_item d)) as [Ht Hc].
  split; by eapply substring_trans.
Qed.

Lemma entries_shown (rs1 rs2 : list ResultItem) :
  shown <$> rs1 = shown <$> rs2 → entries rs1 = entries rs2.
Proof.
  revert rs2. induction rs1 as [|r1 rs1 IH]; intros [|r2 rs2] Heq;
    try done.
  injection Heq as Ht Hc Hrest. cbn [entries]. unfold entry.
  by rewrite Ht, Hc, (IH rs2 Hrest).
Qed.

(** X11. The formatter reads the titles and the contents only: two responses
    whose entries agree on those give the same text, whatever their sources,
    echoed queries and counts. *)
Theorem format_for_llm_reads_title_and_content (rs1 rs2 : list ResultItem)
    (q1 q2 : option string) (n1 n2 : option nat) :
  shown <$> rs1 = shown <$> rs2 →
  format_for_llm (Some {| results := Some rs1; query := q1;
                          total_results := n1 |})
  = format_for_llm (Some {| results := Some rs2; query := q2;
                            total_results := n2 |}).
Proof.
  intros Heq. pose proof (entries_shown rs1 rs2 Heq) as Hentries.
  destruct rs1 as [|r1 rs1], rs2 as [|r2 rs2]; try done.
  rewrite (format_for_llm_results
             {| results := Some (r1 :: rs1); query := q1; total_results := n1 |}
             r1 rs1 eq_refl).
  rewrite (format_for_llm_results
             {| results := Some (r2 :: rs2); query := q2; total_results := n2 |}
             r2 rs2 eq_refl).
  by rewrite Hentries.
Qed.

(** X12. What the client receives: the query it sent, one entry per document
    the search found, each built from a document of the corpus, and their
    number; in embedding mode there are at most three. *)
Theorem request_company_data_response (st : Server) (q : string)
    (resp : Response) :
  request_company_data np st q = Ok resp →
  ∃ found,
    search_data np st q 3 (3 # 10) = Ok found ∧
    query resp = Some q ∧
    results resp = Some (to_item <$> found) ∧
    total_results resp = Some (length found) ∧
    (∀ d, d ∈ found → d ∈ company_data st) ∧
    (keyword_mode st = false → length found ≤ 3).
Proof.
  rewrite request_company_data_eq.
  destruct (search_data np st q 3 (3 # 10)) as [found|e] eqn:Hfound; [|done].
  intros [= <-]. exists found. split; [done|]. split; [done|].
  split; [done|]. split; [by cbn; rewrite length_fmap|]. split.
  - intros d [j Hj]%list_elem_of_lookup_1.
    destruct (keyword_mode st) eqn:Hmode.
    + rewrite search_data_keyword in Hfound by done. injection Hfound as <-.
      apply list_elem_of_lookup_2 in Hj.
      by apply list_elem_of_filter in Hj as [_ ?].
    + destruct (search_data_slices np st q _ _ found Hmode Hfound)
        as [ranking Hall].
      rewrite Hall in Hfound. apply mapM_getitem_Forall2 in Hfound.
      destruct (Forall2_lookup_r _ _ _ _ _ Hfound Hj) as (i & _ & Hi).
      by eapply list_elem_of_lookup_2.
  - intros Hmode.
    destruct (search_data_slices np st q _ _ found Hmode Hfound)
      as [ranking Hall].
    rewrite Hall in Hfound. apply mapM_getitem_length in Hfound.
    rewrite Hfound. cbn. rewrite length_take. lia.
Qed.

(** X13. At query time nothing is caught: when the embedding model raises
    on the query, the search, the request and the context raise the same
    exception (unlike a failure during the load). *)
Theorem model_error_propagates (st : Server) (model : Model) (embs : matrix)
    (q : string) (k : Z) (t : Q) (e : exn) :
  embedding_model st = Some model →
  doc_embeddings st = Some embs →
  encode model [q] = Raise e →
  search_data np st q k t = Raise e ∧
  request_company_data np st q = Raise e ∧
  mcp_context np st q = Raise e.
Proof.
  intros Hmodel Hembs Henc.
  assert (∀ k' t', search_data np st q k' t' = Raise e) as Hraise.
  { intros k' t'. unfold search_data. by rewrite Hmodel, Hembs, Henc. }
  split; [done|].
  assert (request_company_data np st q = Raise e) as Hreq.
  { by rewrite request_company_data_eq, Hraise. }
  split; [done|]. unfold mcp_context. by rewrite Hreq.
Qed.

End ContextFacts.

(** ** The full ranking *)

Section FullRanking.

Context {py : Python}.
Variable np : NumPy.

Lemma omap_Some {A} (l : list A) : omap Some l = l.
Proof. induction l as [|x l IH]; [done|]. csimpl. by rewrite IH. Qed.

Lemma lookups_perm {A} (l : list A) (idxs : list nat) (res : list A) :
  Forall2 (λ i d, l !! i = Some d) idxs res →
  idxs ≡ₚ seq 0 (length l) →
  res ≡ₚ l.
Proof.
  intros Hdocs Hperm.
  assert (omap (l !!.) (seq 0 (length l)) = l) as Hseq.
  { transitivity (omap Some l); [|apply omap_Some]. apply list_omap_ext.
    apply Forall2_same_length_lookup_2; [by rewrite length_seq|].
    intros i j d [-> _]%lookup_seq Hd. done. }
  rewrite <- (omap_Some res), <- (list_omap_ext _ _ _ _ Hdocs), Hperm.
  by rewrite Hseq.
Qed.

(** X14. In embedding mode a [top_k] of at least the corpus size returns the
    whole corpus, every document once, rearranged by the ranking. *)
Theorem embedding_search_all st model E q qv (k : Z) (t : Q) :
  argsort_sorts np →
  embedding_ready st model E q qv →
  company_data st ≠ [] →
  (Z.of_nat (length (company_data st)) ≤ k)%Z →
  ∃ res,
    search_data np st q k t = Ok res ∧
    res ≡ₚ company_data st.
Proof.
  intros Hsort Hready Hne Hk.
  destruct (search_data_embedding_ok np st model E q qv k t Hsort Hready Hne)
    as (res & Hres & Hdocs).
  exists res. split; [done|].
  set (sims := scores np E qv) in *.
  assert (length sims = length (company_data st)) as Hn.
  { unfold sims. rewrite length_scores.
    by destruct Hready as (_ & _ & ? & _). }
  assert (slice_to (reverse (argsort np sims)) k = reverse (argsort np sims))
    as Hall.
  { unfold slice_to. destruct (Z.leb_spec 0 k); [|lia].
    apply take_ge. rewrite ranking_length by done. lia. }
  rewrite Hall in Hdocs. apply (lookups_perm _ _ _ Hdocs).
  rewrite <- Hn. by apply ranking_perm.
Qed.

End FullRanking.

(** ** Best match and fragments *)

Section Finding.

Context {py : Python}.
Variable np : NumPy.

(** X15. In embedding mode with a positive [top_k] and a non-empty corpus
    the first document returned has the highest similarity to the query, as
    numpy computes it, of the whole corpus. *)
Theorem embedding_first_result_is_best st model E q qv (k : Z) (t : Q) :
  argsort_sorts np →
  embedding_ready st model E q qv →
  company_data st ≠ [] →
  (1 ≤ k)%Z →
  ∃ best rest i,
    search_data np st q k t = Ok (best :: rest) ∧
    company_data st !! i = Some best ∧
    ∀ j, j < length (company_data st) →
         (cosine np E qv j <= cosine np E qv i)%Q.
Proof.
  intros Hsort Hready Hne Hk.
  destruct (search_data_embedding_ok np st model E q qv k t Hsort Hready Hne)
    as (res & Hres & Hdocs).
  set (sims := scores np E qv) in *.
  assert (length E = length (company_data st)) as HE
    by (by destruct Hready as (_ & _ & ? & _)).
  assert (length sims = length (company_data st)) as Hn
    by (unfold sims; by rewrite length_scores).
  assert (0 < length (company_data st)) as Hpos
    by (destruct (company_data st); [done | cbn; lia]).
  assert (slice_to (reverse (argsort np sims)) k
          = take (Z.to_nat k) (reverse (argsort np sims))) as Hslice.
  { unfold slice_to. by destruct (Z.leb_spec 0 k); [|lia]. }
  rewrite Hslice in Hdocs.
  destruct (lookup_lt_is_Some_2 (reverse (argsort np sims)) 0) as [i Hi].
  { rewrite ranking_length by done. lia. }
  assert (take (Z.to_nat k) (reverse (argsort np sims)) !! 0 = Some i) as Hi'.
  { rewrite lookup_take_lt by lia. done. }
  destruct (Forall2_lookup_l _ _ _ _ _ Hdocs Hi') as (best & Hbest & Hcorpus).
  destruct res as [|best' rest]; [done|]. injection Hbest as ->.
  assert (i < length E) as Hlt.
  { rewrite HE. by eapply lookup_lt_Some. }
  exists best, rest, i. split; [done|]. split; [done|].
  intros j Hj.
  assert (j ∈ reverse (argsort np sims)) as [p Hp]%list_elem_of_lookup_1.
  { apply ranking_elem; [done|]. by rewrite Hn. }
  eapply (ranking_descending np sims 0 p i j); try done; [lia|..];
    apply scores_lookup; split; [done | done | lia | done].
Qed.

(** X16. On the keyword path a document is found by any fragment of its
    title or of its content, in whatever case the fragment is typed, when
    that title or content is ASCII text. *)
Theorem keyword_search_finds_fragment st (d : Doc) (frag q : string)
    (k : Z) (t : Q) :
  keyword_mode st = true →
  d ∈ company_data st →
  (PyStr.substring frag (doc_title d) ∧
   PyStr.is_ascii (doc_title d) = true) ∨
  (PyStr.substring frag (doc_content d) ∧
   PyStr.is_ascii (doc_content d) = true) →
  str_lower q = str_lower frag →
  ∃ res, search_data np st q k t = Ok res ∧ d ∈ res.
Proof.
  intros Hmode Hd Hfrag Hq. rewrite search_data_keyword by done.
  eexists. split; [done|]. apply list_elem_of_filter. split; [|done].
  unfold matches. rewrite Hq.
  destruct Hfrag as [[Ht Ha] | [Hc Ha]]; [left | right];
    by apply str_lower_substring.
Qed.

End Finding.

(** ** No document twice *)

Section NoRepeats.

Context {py : Python}.
Variable np : NumPy.

Lemma search_data_ranking st q (k : Z) (t : Q) res :
  keyword_mode st = false →
  search_data np st q k t = Ok res →
  ∃ sims,
    mapM (getitem (company_data st))
         (slice_to (reverse (argsort np sims)) k) = Ok res.
Proof.
  unfold keyword_mode, search_data.
  destruct (embedding_model st) as [model|]; [|done].
  destruct (doc_embeddings st) as [embs|]; [|done]. intros _.
  destruct (encode model [q]) as [encoded|]; [|done].
  change (Ok encoded ≫= ?f) with (f encoded). cbv beta.
  destruct (getitem encoded 0) as [query_emb|]; [|done].
  change (Ok query_emb ≫= ?f) with (f query_emb). cbv beta.
  destruct (similarities np embs query_emb) as [sims|]; [|done].
  change (Ok sims ≫= ?f) with (f sims). cbv beta.
  destruct (mapM (getitem (company_data st)) (seq 0 (length sims)))
    as [read|]; [|done].
  intros Hres. by exists sims.
Qed.

Lemma lookups_NoDup {A} (l : list A) (idxs : list nat) (res : list A) :
  Forall2 (λ i d, l !! i = Some d) idxs res →
  NoDup idxs → NoDup l → NoDup res.
Proof.
  intros Hdocs Hidxs Hl. apply NoDup_alt. intros i j d Hi Hj.
  destruct (Forall2_lookup_r _ _ _ _ _ Hdocs Hi) as (a & Ha & Hla).
  destruct (Forall2_lookup_r _ _ _ _ _ Hdocs Hj) as (b & Hb & Hlb).
  assert (a = b) as -> by (by eapply (NoDup_lookup l)).
  by eapply (NoDup_lookup idxs).
Qed.

(** X17. When the corpus holds no document twice, neither does a result of
    the search: on the keyword path always, on the embedding path as soon as
    [argsort] returns each index once. *)
Theorem search_returns_no_repeats st q (k : Z) (t : Q) res :
  argsort_sorts np →
  NoDup (company_data st) →
  search_data np st q k t = Ok res →
  NoDup res.
Proof.
  intros Hsort Hcorpus Hres. destruct (keyword_mode st) eqn:Hmode.
  - rewrite search_data_keyword in Hres by done. injection Hres as <-.
    by apply NoDup_filter.
  - destruct (search_data_ranking st q k t res Hmode Hres) as [sims Hmap].
    apply mapM_getitem_Forall2 in Hmap.
    apply (lookups_NoDup _ _ _ Hmap); [|done].
    destruct (slice_to_take (reverse (argsort np sims)) k) as [n ->].
    eapply sublist_NoDup; [by apply ranking_NoDup | apply sublist_take].
Qed.

End NoRepeats.

(** ** The further properties at the example corpus *)

Module ExtraFacts.
Import Example.

Lemma model_regular : regular model 2.
Proof.
  intros texts. exists (map embed texts). split; [done|].
  split; [by rewrite length_map|].
  apply Forall_forall. intros row (text & -> & _)%list_elem_of_fmap.
  unfold embed. by destruct (PyStr.contains _ _).
Qed.

Lemma search_results_from_corpus_witness :
  search_data RefNumPy.np store question 1 (3 # 10) = Ok [profile] ∧
  profile ∈ company_data store.
Proof.
  assert (search_data RefNumPy.np store question 1 (3 # 10) = Ok [profile])
    as Hres by (vm_compute; reflexivity).
  split; [exact Hres|].
  apply (search_results_from_corpus RefNumPy.np store question 1 (3 # 10)
           [profile] Hres profile).
  apply elem_of_cons. by left.
Defined.

Lemma embedding_search_at_most_top_k_witness :
  length [profile] ≤ Z.to_nat 1.
Proof.
  apply (embedding_search_at_most_top_k RefNumPy.np store question 1 (3 # 10)
           [profile]); [reflexivity | lia | vm_compute; reflexivity].
Defined.

Lemma embedding_search_prefix_witness :
  search_data RefNumPy.np store question 1 (3 # 10)
  = Ok (take (Z.to_nat 1) [profile; products]).
Proof.
  apply (embedding_search_prefix RefNumPy.np store question 1 3 (3 # 10)
           [profile; products]); [reflexivity | lia | vm_compute; reflexivity].
Defined.

Lemma keyword_search_ignores_case_witness :
  search_data RefNumPy.np keyword_store (PyStr.lower "TechCorp") 3 (3 # 10)
  = search_data RefNumPy.np keyword_store "TechCorp" 3 (3 # 10) ∧
  ∀ q', PyStr.lower q' = PyStr.lower "TechCorp" →
        search_data RefNumPy.np keyword_store q' 3 (3 # 10)
        = search_data RefNumPy.np keyword_store "TechCorp" 3 (3 # 10).
Proof.
  apply (keyword_search_ignores_case RefNumPy.np keyword_store "TechCorp" 3
           (3 # 10)). reflexivity.
Defined.

Lemma keyword_search_narrows_witness :
  ∃ res1 res2,
    search_data RefNumPy.np keyword_store "TechCorp" 3 (3 # 10) = Ok res1 ∧
    search_data RefNumPy.np keyword_store "TechCorp was" 3 (3 # 10) = Ok res2 ∧
    res2 = filter (matches "TechCorp was") res1 ∧
    res2 `sublist_of` res1.
Proof.
  apply (keyword_search_narrows RefNumPy.np keyword_store "TechCorp"
           "TechCorp was" 3 3 (3 # 10) (3 # 10));
    [reflexivity | | reflexivity].
  exists "", " was". reflexivity.
Defined.

Lemma keyword_mode_after_load_is_empty_witness :
  load_fails missing_file ∧
  company_data (setup_mcp missing_file) = [] ∧
  search_data RefNumPy.np (setup_mcp missing_file) question 3 (3 # 10) = Ok [].
Proof.
  apply (keyword_mode_after_load_is_empty RefNumPy.np missing_file question 3
           (3 # 10)). reflexivity.
Defined.

Lemma loaded_store_answers_witness :
  (∃ embs, doc_embeddings (setup_mcp env) = Some embs ∧
           length embs = length [profile; products]) ∧
  ∃ res,
    search_data RefNumPy.np (setup_mcp env) question 1 (3 # 10) = Ok res ∧
    length res = Z.to_nat 1 `min` length [profile; products] ∧
    ∀ d, d ∈ res → d ∈ [profile; products].
Proof.
  apply (loaded_store_answers RefNumPy.np env [profile; products] model 2
           question 1 (3 # 10) RefNumPyFacts.np_sorts model_regular);
    [reflexivity | reflexivity | discriminate | lia].
Defined.

Lemma failed_load_context_witness :
  mcp_context RefNumPy.np (setup_mcp missing_file) question
  = Ok no_information.
Proof.
  apply (failed_load_context RefNumPy.np missing_file question).
  left. exists OSError. reflexivity.
Defined.

Lemma context_contains_documents_witness :
  ∃ ctx,
    mcp_context RefNumPy.np keyword_store "TechCorp" = Ok ctx ∧
    PyStr.substring (doc_title profile) ctx ∧
    PyStr.substring (doc_content profile) ctx.
Proof.
  apply (context_contains_documents RefNumPy.np keyword_store "TechCorp"
           [profile; products] profile); [vm_compute; reflexivity|].
  apply elem_of_cons. by left.
Defined.

Lemma format_for_llm_reads_title_and_content_witness :
  format_for_llm
    (Some {| results := Some [ {| title := "T1"; content := "C1";
                                  source := "Company Database - 1" |} ];
             query := Some "first";
             total_results := Some 1 |})
  = format_for_llm
      (Some {| results := Some [ {| title := "T1"; content := "C1";
                                    source := "elsewhere" |} ];
               query := None;
               total_results := Some 7 |}).
Proof.
  apply (format_for_llm_reads_title_and_content
           [ {| title := "T1"; content := "C1";
                source := "Company Database - 1" |} ]
           [ {| title := "T1"; content := "C1"; source := "elsewhere" |} ]
           (Some "first") None (Some 1) (Some 7)).
  reflexivity.
Defined.

Lemma request_company_data_response_witness :
  ∃ found,
    search_data RefNumPy.np store question 3 (3 # 10) = Ok found ∧
    query (envelope question [profile; products]) = Some question ∧
    results (envelope question [profile; products])
      = Some (to_item <$> found) ∧
    total_results (envelope question [profile; products])
      = Some (length found) ∧
    (∀ d, d ∈ found → d ∈ company_data store) ∧
    (keyword_mode store = false → length found ≤ 3).
Proof.
  apply (request_company_data_response RefNumPy.np store question
           (envelope question [profile; products])).
  vm_compute. reflexivity.
Defined.

Lemma model_error_propagates_witness :
  search_data RefNumPy.np broken_store question 3 (3 # 10) = Raise ModelError ∧
  request_company_data RefNumPy.np broken_store question = Raise ModelError ∧
  mcp_context RefNumPy.np broken_store question = Raise ModelError.
Proof.
  apply (model_error_propagates RefNumPy.np broken_store broken_model
           [[3 # 1; 4 # 1]]%Q question 3 (3 # 10) ModelError);
    reflexivity.
Defined.

Lemma embedding_search_all_witness :
  ∃ res,
    search_data RefNumPy.np store question 5 (3 # 10) = Ok res ∧
    res ≡ₚ company_data store.
Proof.
  apply (embedding_search_all RefNumPy.np store model embeddings question
           (embed question) 5 (3 # 10) RefNumPyFacts.np_sorts
           (ExampleFacts.store_ready question)); [discriminate|].
  vm_compute. discriminate.
Defined.

Lemma embedding_first_result_is_best_witness :
  ∃ best rest i,
    search_data RefNumPy.np store question 1 (3 # 10) = Ok (best :: rest) ∧
    company_data store !! i = Some best ∧
    ∀ j, j < length (company_data store) →
         (cosine RefNumPy.np embeddings (embed question) j
          <= cosine RefNumPy.np embeddings (embed question) i)%Q.
Proof.
  apply (embedding_first_result_is_best RefNumPy.np store model embeddings
           question (embed question) 1 (3 # 10) RefNumPyFacts.np_sorts
           (ExampleFacts.store_ready question)); [discriminate | lia].
Defined.

Lemma search_returns_no_repeats_witness :
  NoDup [profile; products].
Proof.
  apply (search_returns_no_repeats RefNumPy.np store question 3 (3 # 10)
           [profile; products] RefNumPyFacts.np_sorts);
    [|vm_compute; reflexivity].
  apply NoDup_cons. split; [|apply NoDup_singleton].
  intros Hin%list_elem_of_singleton. discriminate.
Defined.

Lemma keyword_search_finds_fragment_witness :
  ∃ res,
    search_data RefNumPy.np keyword_store "FOUNDED" 3 (3 # 10) = Ok res ∧
    profile ∈ res.
Proof.
  apply (keyword_search_finds_fragment RefNumPy.np keyword_store profile
           "founded" "FOUNDED" 3 (3 # 10)); [reflexivity | | | reflexivity].
  - apply elem_of_cons. by left.
  - right. split; [|reflexivity].
    exists "TechCorp was ", " in 2010.". reflexivity.
Defined.

End ExtraFacts.
